(** * Drilling-permit ingestion pipeline: app.py and ingest_job.py

    A shallow embedding of the schema harmonizer, the content decoder, the
    cached source fetcher, the ingestion coordinator and the normalization
    and metrics stage of the permit tracker.

    A pandas DataFrame is a row count (its index) and an ordered list of
    named columns, each a list of cells.  Python strings are Rocq strings
    (ASCII).  Timestamps are seconds since the epoch.  Library routines that
    the repository only calls (json.loads, pandas.read_csv, the date parser,
    requests.get) are section variables. *)

From Stdlib Require Import String Ascii List Arith ZArith Bool Lia.
Import ListNotations.
Open Scope string_scope.
Open Scope list_scope.
Set Warnings "-register-all".

(** ** Values and frames *)

Inductive json : Type :=
| JNull
| JBool (b : bool)
| JNum (z : Z)
| JStr (s : string)
| JArr (l : list json)
| JObj (kv : list (string * json)).

(** A cell of a DataFrame; [VNA] is any pandas missing value
    (None, NaN, NaT, pd.NA). *)
Inductive val : Type :=
| VNA
| VStr (s : string)
| VNum (z : Z)
| VBool (b : bool)
| VJson (j : json)
| VTime (t : Z).

Definition is_na (v : val) : bool :=
  match v with VNA => true | _ => false end.

Record frame : Type := mkFrame {
  nrows : nat;
  cols : list (string * list val)
}.

(** [df.columns] *)
Definition columns (f : frame) : list string := map fst (cols f).

(** Every column holds one cell per index entry. *)
Definition wf (f : frame) : Prop :=
  Forall (fun c => length (snd c) = nrows f) (cols f).

(** Column access on a frame whose names are distinct (the frames the code
    builds itself). *)
Fixpoint get_col (cs : list (string * list val)) (c : string) : list val :=
  match cs with
  | [] => []
  | (c', v) :: rest => if String.eqb c c' then v else get_col rest c
  end.

(** [df[c]] on an arbitrary frame: a single column when the name occurs once;
    an absent name is a KeyError and a duplicated one yields a DataFrame,
    which no caller here can store into a single column. *)
Definition df_getitem (f : frame) (c : string) : option (list val) :=
  match filter (fun p => String.eqb (fst p) c) (cols f) with
  | [(_, v)] => Some v
  | _ => None
  end.

(** [df[c] = v]: replaces the column in place, or appends a new one. *)
Fixpoint set_col (cs : list (string * list val)) (c : string) (v : list val)
  : list (string * list val) :=
  match cs with
  | [] => [(c, v)]
  | (c', v') :: rest =>
      if String.eqb c c' then (c, v) :: rest else (c', v') :: set_col rest c v
  end.

Definition frame_set (f : frame) (c : string) (v : list val) : frame :=
  mkFrame (nrows f) (set_col (cols f) c v).

(** [series.fillna(x)] *)
Definition fillna (v : list val) (x : string) : list val :=
  map (fun e => if is_na e then VStr x else e) v.

(** Row [i] of a frame, as (column name, cell) pairs. *)
Definition frame_row (f : frame) (i : nat) : list (string * val) :=
  map (fun p => (fst p, nth i (snd p) VNA)) (cols f).

(** ** Python string helpers *)

(** [str.lower] on ASCII. *)
Definition lower_char (a : ascii) : ascii :=
  let n := nat_of_ascii a in
  if Nat.leb 65 n && Nat.leb n 90 then ascii_of_nat (n + 32) else a.

Fixpoint py_lower (s : string) : string :=
  match s with
  | EmptyString => EmptyString
  | String a r => String (lower_char a) (py_lower r)
  end.

(** [str.isspace] on ASCII: space, \t \n \v \f \r and \x1c to \x1f. *)
Definition is_space (a : ascii) : bool :=
  let n := nat_of_ascii a in
  Nat.eqb n 32 || (Nat.leb 9 n && Nat.leb n 13) || (Nat.leb 28 n && Nat.leb n 31).

Fixpoint lstrip (s : string) : string :=
  match s with
  | EmptyString => EmptyString
  | String a r => if is_space a then lstrip r else s
  end.

Definition rev_string (s : string) : string :=
  string_of_list_ascii (rev (list_ascii_of_string s)).

(** [str.strip()] *)
Definition py_strip (s : string) : string :=
  rev_string (lstrip (rev_string (lstrip s))).

(** The key the code compares on: [c.lower().strip()]. *)
Definition norm (s : string) : string := py_strip (py_lower s).

(** Decimal rendering of a natural number and the [:06d] format. *)
Fixpoint dec_digits (fuel n : nat) (acc : string) : string :=
  match fuel with
  | 0 => acc
  | S fuel' =>
      let acc' := String (ascii_of_nat (48 + n mod 10)) acc in
      if Nat.ltb n 10 then acc' else dec_digits fuel' (n / 10) acc'
  end.

Definition str_of_nat (n : nat) : string := dec_digits (S n) n EmptyString.

Definition fmt06 (n : nat) : string :=
  let s := str_of_nat n in
  (String.concat "" (repeat "0" (6 - String.length s)) ++ s)%string.

(** ** Schema constants (identical in app.py and ingest_job.py) *)

Definition REQUIRED_COLUMNS : list string :=
  ["permit_id"; "state"; "operator"; "county_parish"; "well_name";
   "permit_type"; "status"; "application_date"; "approval_date";
   "expiration_date"].

Definition COLUMN_ALIASES : list (string * list string) :=
  [("permit_id", ["permit_id"; "permit_number"; "permit_no"; "api_number"; "api"]);
   ("state", ["state"; "jurisdiction"]);
   ("operator", ["operator"; "operator_name"; "company"; "organization"]);
   ("county_parish", ["county_parish"; "county"; "parish"; "location"]);
   ("well_name", ["well_name"; "well"; "wellbore_name"; "lease_well_name"]);
   ("permit_type", ["permit_type"; "well_type"; "drill_type"; "permit_category"]);
   ("status", ["status"; "permit_status"; "approval_status"]);
   ("application_date", ["application_date"; "application_dt"; "filed_date"; "submitted_date"]);
   ("approval_date", ["approval_date"; "approved_date"; "approval_dt"; "issue_date"]);
   ("expiration_date", ["expiration_date"; "expiry_date"; "expiration_dt"; "expires_on"])].

(** ** Alias resolution: [_find_alias_column] *)

(** A Python dict with string keys, in insertion order. *)
Fixpoint dict_get {A} (k : string) (d : list (string * A)) : option A :=
  match d with
  | [] => None
  | (k', v) :: rest => if String.eqb k k' then Some v else dict_get k rest
  end.

(** [d[k] = v]: an existing key keeps its position. *)
Fixpoint dict_set {A} (d : list (string * A)) (k : string) (v : A)
  : list (string * A) :=
  match d with
  | [] => [(k, v)]
  | (k', v') :: rest =>
      if String.eqb k k' then (k, v) :: rest else (k', v') :: dict_set rest k v
  end.

(** [lookup = {c.lower().strip(): c for c in df.columns}] *)
Definition alias_lookup (cs : list string) : list (string * string) :=
  fold_left (fun d c => dict_set d (norm c) c) cs [].

Fixpoint find_in_lookup (lookup : list (string * string)) (candidates : list string)
  : option string :=
  match candidates with
  | [] => None
  | candidate :: rest =>
      let key := norm candidate in
      match dict_get key lookup with
      | Some c => Some c
      | None => find_in_lookup lookup rest
      end
  end.

Definition _find_alias_column (cs : list string) (candidates : list string)
  : option string :=
  find_in_lookup (alias_lookup cs) candidates.

(** ** [harmonize_schema] *)

(** The loop [for target_col, aliases in COLUMN_ALIASES.items()]; [None]
    is the ValueError raised when the resolved name is duplicated in [df]. *)
Fixpoint resolve (df : frame) (aliases : list (string * list string)) (out : frame)
  : option frame :=
  match aliases with
  | [] => Some out
  | (target_col, cands) :: rest =>
      match _find_alias_column (columns df) cands with
      | Some source_col =>
          match df_getitem df source_col with
          | Some v => resolve df rest (frame_set out target_col v)
          | None => None
          end
      | None => resolve df rest (frame_set out target_col (repeat VNA (nrows df)))
      end
  end.

(** [out[c] = out[c].fillna(x)] *)
Definition fill_col (c x : string) (out : frame) : frame :=
  frame_set out c (fillna (get_col (cols out) c) x).

(** [[f"{fallback_state}-AUTO-{i+1:06d}" for i in range(len(out))]] *)
Definition auto_ids (fallback_state : string) (n : nat) : list val :=
  map (fun i => VStr (fallback_state ++ "-AUTO-" ++ fmt06 (i + 1))%string) (seq 0 n).

(** [if out["permit_id"].isna().all(): out["permit_id"] = [...]] *)
Definition synthesize_ids (fallback_state : string) (out : frame) : frame :=
  if forallb is_na (get_col (cols out) "permit_id")
  then frame_set out "permit_id" (auto_ids fallback_state (nrows out))
  else out.

Module App.

(** app.py, [harmonize_schema]. *)
Definition harmonize_schema (df : frame) (fallback_state : string) : option frame :=
  match resolve df COLUMN_ALIASES (mkFrame (nrows df) []) with
  | None => None
  | Some out =>
      let out := fill_col "state" fallback_state out in
      let out := fill_col "status" "Pending" out in
      let out := fill_col "permit_type" "Unknown" out in
      let out := fill_col "operator" "Unknown Operator" out in
      let out := fill_col "county_parish" "Unknown" out in
      let out := fill_col "well_name" "Unknown Well" out in
      Some (synthesize_ids fallback_state out)
  end.

End App.

(** The date parser of [pd.to_datetime]: the instant a value denotes and
    the UTC offset written in it ([None] for a naive timestamp), or [None]
    for a value that is no date.  It stands for the format pandas infers for
    the column; a converted cell keeps the instant only, so a column that is
    tz-aware in pandas is not told apart from a naive one. *)
Definition parser : Type := val -> option (Z * option Z).

(** One cell of [pd.to_datetime(series, errors="coerce")]: datetimes and
    nulls are kept, any other value goes through the date parser, and a value
    the parser rejects becomes NaT. *)
Definition date_cell (parse : parser) (v : val) : val :=
  match v with
  | VTime t => VTime t
  | VNA => VNA
  | _ => match parse v with Some (t, _) => VTime t | None => VNA end
  end.

Definition to_datetime (parse : parser) (v : list val) : list val :=
  map (date_cell parse) v.

(** The offset marker [array_to_datetime] records for a parsed string
    ([Some None] is its "naive" marker); datetimes, nulls and coerced
    values record none. *)
Definition cell_offset (parse : parser) (v : val) : option (option Z) :=
  match v with
  | VTime _ | VNA => None
  | _ => match parse v with Some (_, o) => Some o | None => None end
  end.

Definition offset_eqb (a b : option Z) : bool :=
  match a, b with
  | Some x, Some y => Z.eqb x y
  | None, None => true
  | _, _ => false
  end.

(** More than one marker in [out_tzoffset_vals]: the strings of the column
    mix UTC offsets, or mix offsets with naive timestamps. *)
Definition mixed_offsets (parse : parser) (v : list val) : bool :=
  match flat_map (fun x => match cell_offset parse x with
                           | Some o => [o] | None => [] end) v with
  | [] => false
  | o :: os => existsb (fun o' => negb (offset_eqb o o')) os
  end.

(** [pd.to_datetime(series, errors="coerce")] under pandas 3, which raises
    on mixed offsets whatever [errors] says. *)
Definition to_datetime_checked (parse : parser) (v : list val) : string + list val :=
  if mixed_offsets parse v
  then inl "ValueError: Mixed timezones detected. Pass utc=True in to_datetime or tz='UTC' to convert to a unified timezone."
  else inr (to_datetime parse v).

Module Ingest.

Definition DEFAULTS : list (string * string) :=
  [("status", "Pending"); ("permit_type", "Unknown");
   ("operator", "Unknown Operator"); ("county_parish", "Unknown");
   ("well_name", "Unknown Well")].

Definition DATE_COLUMNS : list string :=
  ["application_date"; "approval_date"; "expiration_date"].

(** [for col in [...]: out[col] = pd.to_datetime(out[col], errors="coerce")] *)
Fixpoint convert_dates (parse : parser) (cs : list string) (o : frame) : string + frame :=
  match cs with
  | [] => inr o
  | c :: rest =>
      match to_datetime_checked parse (get_col (cols o) c) with
      | inl e => inl e
      | inr v => convert_dates parse rest (frame_set o c v)
      end
  end.

(** ingest_job.py, [harmonize_schema]; [now] is [datetime.now(timezone.utc)],
    and [inl] carries the exception raised. *)
Definition harmonize_schema_exc (parse : parser) (now : Z)
  (df : frame) (fallback_state : string) : string + frame :=
  match resolve df COLUMN_ALIASES (mkFrame (nrows df) []) with
  | None => inl "ValueError: Cannot set a DataFrame with multiple columns to the single column"
  | Some out =>
      let out := fill_col "state" fallback_state out in
      let out := fold_left (fun o p => fill_col (fst p) (snd p) o) DEFAULTS out in
      let out := synthesize_ids fallback_state out in
      match convert_dates parse DATE_COLUMNS out with
      | inl e => inl e
      | inr out => inr (frame_set out "ingested_at_utc" (repeat (VTime now) (nrows out)))
      end
  end.

(** The same call, [None] where it raises. *)
Definition harmonize_schema (parse : parser) (now : Z)
  (df : frame) (fallback_state : string) : option frame :=
  match harmonize_schema_exc parse now df fallback_state with
  | inr out => Some out
  | inl _ => None
  end.

End Ingest.

(** ** Views of the harmonizer used in its specification *)

(** The values the loop stores under one canonical name. *)
Definition source_values (df : frame) (cands : list string) : option (list val) :=
  match _find_alias_column (columns df) cands with
  | Some s => df_getitem df s
  | None => Some (repeat VNA (nrows df))
  end.

Fixpoint resolved_cols (df : frame) (al : list (string * list string))
  : option (list (string * list val)) :=
  match al with
  | [] => Some []
  | (t, cands) :: rest =>
      match source_values df cands with
      | Some v => option_map (cons (t, v)) (resolved_cols df rest)
      | None => None
      end
  end.

Definition aliases_of (t : string) : list string :=
  match dict_get t COLUMN_ALIASES with Some l => l | None => [] end.

(** The ten resolved source columns, one per canonical name. *)
Definition sources_ok (df : frame) (vs : list (list val)) : Prop :=
  Forall2 (fun t v => source_values df (aliases_of t) = Some v) REQUIRED_COLUMNS vs.


(** The columns app.py's harmonizer builds from the resolved sources. *)
Definition app_out_cols (fs : string) (n : nat) (vs : list (list val))
  : list (string * list val) :=
  match vs with
  | [pid; st; op; cp; wn; pt; stt; ad; apd; ed] =>
      [("permit_id", if forallb is_na pid then auto_ids fs n else pid);
       ("state", fillna st fs);
       ("operator", fillna op "Unknown Operator");
       ("county_parish", fillna cp "Unknown");
       ("well_name", fillna wn "Unknown Well");
       ("permit_type", fillna pt "Unknown");
       ("status", fillna stt "Pending");
       ("application_date", ad); ("approval_date", apd); ("expiration_date", ed)]
  | _ => []
  end.

(** The columns ingest_job.py's harmonizer builds from the resolved sources. *)
Definition ingest_out_cols (parse : parser) (now : Z) (fs : string) (n : nat)
  (vs : list (list val)) : list (string * list val) :=
  match vs with
  | [pid; st; op; cp; wn; pt; stt; ad; apd; ed] =>
      [("permit_id", if forallb is_na pid then auto_ids fs n else pid);
       ("state", fillna st fs);
       ("operator", fillna op "Unknown Operator");
       ("county_parish", fillna cp "Unknown");
       ("well_name", fillna wn "Unknown Well");
       ("permit_type", fillna pt "Unknown");
       ("status", fillna stt "Pending");
       ("application_date", to_datetime parse ad);
       ("approval_date", to_datetime parse apd);
       ("expiration_date", to_datetime parse ed);
       ("ingested_at_utc", repeat (VTime now) n)]
  | _ => []
  end.

(** The last column of [cs] whose key is [k]. *)
Definition last_match (k : string) (cs : list string) : option string :=
  fold_left (fun acc c => if String.eqb k (norm c) then Some c else acc) cs None.

(** ** Record-wise view of the harmonizers *)

Definition row_get (r : list (string * val)) (c : string) : val :=
  match dict_get c r with Some v => v | None => VNA end.

(** The cell alias resolution reads for canonical field [t] in row [r] of a
    table with columns [cs]. *)
Definition resolved_cell (cs : list string) (r : list (string * val)) (t : string) : val :=
  match _find_alias_column cs (aliases_of t) with
  | Some s => row_get r s
  | None => VNA
  end.

Definition fill_cell (v : val) (x : string) : val := if is_na v then VStr x else v.

(** Whether the identifier synthesis fires for [df]. *)
Definition permit_ids_all_na (df : frame) : bool :=
  match source_values df (aliases_of "permit_id") with
  | Some v => forallb is_na v
  | None => true
  end.

(** Record [i] of app.py's harmonized batch, computed from record [i] of
    the input alone (given the input's column names and the synthesis flag). *)
Definition app_row (cs : list string) (synth : bool) (fs : string) (i : nat)
  (r : list (string * val)) : list (string * val) :=
  let src := resolved_cell cs r in
  [("permit_id", if synth then VStr (fs ++ "-AUTO-" ++ fmt06 (i + 1))%string
                 else src "permit_id");
   ("state", fill_cell (src "state") fs);
   ("operator", fill_cell (src "operator") "Unknown Operator");
   ("county_parish", fill_cell (src "county_parish") "Unknown");
   ("well_name", fill_cell (src "well_name") "Unknown Well");
   ("permit_type", fill_cell (src "permit_type") "Unknown");
   ("status", fill_cell (src "status") "Pending");
   ("application_date", src "application_date");
   ("approval_date", src "approval_date");
   ("expiration_date", src "expiration_date")].

(** Record [i] of ingest_job.py's harmonized batch. *)
Definition ingest_row (parse : parser) (now : Z) (cs : list string) (synth : bool)
  (fs : string) (i : nat) (r : list (string * val)) : list (string * val) :=
  let src := resolved_cell cs r in
  [("permit_id", if synth then VStr (fs ++ "-AUTO-" ++ fmt06 (i + 1))%string
                 else src "permit_id");
   ("state", fill_cell (src "state") fs);
   ("operator", fill_cell (src "operator") "Unknown Operator");
   ("county_parish", fill_cell (src "county_parish") "Unknown");
   ("well_name", fill_cell (src "well_name") "Unknown Well");
   ("permit_type", fill_cell (src "permit_type") "Unknown");
   ("status", fill_cell (src "status") "Pending");
   ("application_date", date_cell parse (src "application_date"));
   ("approval_date", date_cell parse (src "approval_date"));
   ("expiration_date", date_cell parse (src "expiration_date"));
   ("ingested_at_utc", VTime now)].

(** ** Normalization and metrics stage (app.py, lines 154-162 and 256-270) *)

(** Python objects by reference: a store of DataFrames indexed by handle. *)
Definition store : Type := nat -> option frame.

Definition upd (σ : store) (l : nat) (f : frame) : store :=
  fun l' => if Nat.eqb l' l then Some f else σ l'.

Module Page.

Definition DATE_COLUMNS : list string :=
  ["application_date"; "approval_date"; "expiration_date"].

(** [for col in [...]: df[col] = pd.to_datetime(df[col], errors="coerce")],
    on the object [l] the caller passed in.  A missing column raises
    KeyError; a duplicated one hands a DataFrame to [pd.to_datetime], which
    raises ValueError, as it does on a column mixing UTC offsets. *)
Fixpoint normalize_loop (parse : parser) (cs : list string) (σ : store) (l : nat)
  : store * option string :=
  match cs with
  | [] => (σ, None)
  | col :: rest =>
      match σ l with
      | None => (σ, Some "NameError")
      | Some df =>
          match df_getitem df col with
          | Some v =>
              match to_datetime_checked parse v with
              | inl e => (σ, Some e)
              | inr v' => normalize_loop parse rest (upd σ l (frame_set df col v')) l
              end
          | None =>
              (σ, Some (if existsb (String.eqb col) (columns df)
                        then "ValueError" else "KeyError: " ++ col)%string)
          end
      end
  end.

(** [normalize_dates(df)]: mutates [df] and returns it. *)
Definition normalize_dates (parse : parser) (σ : store) (l : nat)
  : store * (string + nat) :=
  let (σ', e) := normalize_loop parse DATE_COLUMNS σ l in
  (σ', match e with None => inr l | Some m => inl m end).

(** [validate_dataframe(df)] *)
Definition validate_dataframe (df : frame) : bool * list string :=
  let missing := filter (fun c => negb (existsb (String.eqb c) (columns df))) REQUIRED_COLUMNS in
  (Nat.eqb (length missing) 0, missing).

(** [pd.Timestamp.today().normalize()]: midnight of the current day. *)
Definition today_of (now : Z) : Z := (now / 86400) * 86400.

(** One cell of [(data["expiration_date"] - today).dt.days]: the difference
    floored to whole days; NaT gives NaN.  After [normalize_dates] the column
    holds only datetimes and NaT. *)
Definition days_to_expiry (today : Z) (v : val) : val :=
  match v with
  | VTime t => VNum ((t - today) / 86400)
  | _ => VNA
  end.

Inductive outcome : Type :=
| Crashed (msg : string)            (** an uncaught exception ends the run *)
| Halted (missing : list string)    (** [st.error(...)]; [st.stop()] *)
| Rendered (σ : store) (l : nat).   (** metrics computed on object [l] *)

(** Lines 256-270: normalize, validate, normalize again, derive
    [days_to_expiry]; [now] is the wall clock when the page runs. *)
Definition run_metrics (parse : parser) (now : Z) (σ : store) (l : nat) : outcome :=
  match normalize_dates parse σ l with
  | (_, inl e) => Crashed e
  | (σ1, inr l1) =>
      match σ1 l1 with
      | None => Crashed "NameError"
      | Some data =>
          let (valid, missing_cols) := validate_dataframe data in
          if negb valid then Halted missing_cols
          else
            match normalize_dates parse σ1 l1 with
            | (_, inl e) => Crashed e
            | (σ2, inr l2) =>
                match σ2 l2 with
                | None => Crashed "NameError"
                | Some data2 =>
                    let today := today_of now in
                    match df_getitem data2 "expiration_date" with
                    | None => Crashed "KeyError: expiration_date"
                    | Some ex =>
                        Rendered (upd σ2 l2 (frame_set data2 "days_to_expiry"
                                              (map (days_to_expiry today) ex))) l2
                    end
                end
            end
      end
  end.

End Page.

(** ** The batch [normalize_dates] leaves *)

Definition is_date_col (c : string) : bool := existsb (String.eqb c) Page.DATE_COLUMNS.

(** The three date columns are present once each and none mixes UTC
    offsets: [normalize_dates] converts them all. *)
Definition dates_convertible (parse : parser) (f : frame) : Prop :=
  forall c, In c Page.DATE_COLUMNS ->
    exists v, df_getitem f c = Some v /\ mixed_offsets parse v = false.

(** The batch [normalize_dates] leaves in the caller's object. *)
Definition coerce_dates (parse : parser) (f : frame) : frame :=
  mkFrame (nrows f)
    (map (fun p => if is_date_col (fst p) then (fst p, to_datetime parse (snd p)) else p)
       (cols f)).

Definition replace_named (c : string) (w : list val) (p : string * list val) :=
  if String.eqb (fst p) c then (c, w) else p.

(** ** Library routines the fetcher calls *)

(** An HTTP response: status code, the Content-Type header ([""] when
    absent) and the body. *)
Record response : Type := mkResponse {
  status_code : nat;
  reason : string;
  content_type : string;
  content : string
}.

(** The routines of requests, json and pandas that the code only calls.
    [http_get k url timeout] is the outcome of the [k]-th request of the
    session ([inl] is the exception it raises).  [dict_frame] is
    [pd.DataFrame(d)] for a mapping holding a nested mapping, whose row
    labels pandas takes from the inner keys; [normalize_lists] is
    [pd.json_normalize(l)] for a list holding something other than a
    mapping (pandas 3 raises TypeError on a scalar there). *)
Record libs : Type := mkLibs {
  http_get : nat -> string -> Z -> string + response;
  json_loads : string -> string + json;
  read_csv : string -> string + frame;
  dict_frame : list (string * json) -> string + frame;
  normalize_lists : list json -> string + frame;
  parse_date : parser
}.

(** ** [_response_to_dataframe] *)

(** [sub in s] *)
Fixpoint str_contains (sub s : string) : bool :=
  String.prefix sub s ||
  match s with EmptyString => false | String _ r => str_contains sub r end.

(** A JSON value as a cell: null is missing, lists and mappings stay objects. *)
Definition cell_of_json (j : json) : val :=
  match j with
  | JNull => VNA
  | JBool b => VBool b
  | JNum z => VNum z
  | JStr s => VStr s
  | _ => VJson j
  end.

Definition is_obj (j : json) : bool := match j with JObj _ => true | _ => false end.

Definition WRAPPER_KEYS : list string := ["data"; "results"; "features"; "items"].

(** [for key in [...]: if key in payload: payload = payload[key]; break];
    a mapping from [json.loads] has distinct keys. *)
Fixpoint unwrap_keys (keys : list string) (kv : list (string * json)) (payload : json) : json :=
  match keys with
  | [] => payload
  | key :: rest =>
      match dict_get key kv with
      | Some v => v
      | None => unwrap_keys rest kv payload
      end
  end.

Definition unwrap (payload : json) : json :=
  match payload with
  | JObj kv => unwrap_keys WRAPPER_KEYS kv payload
  | _ => payload
  end.

(** [_normalise_json]: nested mappings flattened depth first, keys joined
    with ["."]. *)
Definition new_key (key_string k : string) : string :=
  if String.eqb key_string "" then k else (key_string ++ "." ++ k)%string.

Fixpoint normalise_json (j : json) (key_string : string) : list (string * json) :=
  match j with
  | JObj kv =>
      (fix go (kv : list (string * json)) : list (string * json) :=
         match kv with
         | [] => []
         | (k, v) :: rest => normalise_json v (new_key key_string k) ++ go rest
         end) kv
  | _ => [(key_string, j)]
  end.

(** [_normalise_json_ordered]: [{**top_dict_, **flat_dict}]. *)
Definition normalise_json_ordered (kv : list (string * json)) : list (string * json) :=
  let top := filter (fun p => negb (is_obj (snd p))) kv in
  let flat := normalise_json (JObj (filter (fun p => is_obj (snd p)) kv)) "" in
  fold_left (fun d p => dict_set d (fst p) (snd p)) (top ++ flat) [].

(** Distinct names in order of first appearance. *)
Definition col_union (cs : list string) : list string :=
  fold_left (fun acc c => if existsb (String.eqb c) acc then acc else acc ++ [c]) cs [].

(** [pd.DataFrame(list_of_dicts)]: one record per dict, the keys in order of
    first appearance, a key a record lacks giving a missing cell. *)
Definition records_frame (recs : list (list (string * json))) : frame :=
  mkFrame (length recs)
    (map (fun k => (k, map (fun r => match dict_get k r with
                                     | Some j => cell_of_json j
                                     | None => VNA
                                     end) recs))
         (col_union (flat_map (map fst) recs))).

(** [pd.json_normalize(payload)] for a list of mappings:
    [_simple_json_normalize] turns each mapping into its flattened record. *)
Definition record_of (j : json) : list (string * json) :=
  match j with
  | JObj kv => normalise_json_ordered kv
  | _ => []
  end.

Definition json_normalize (L : libs) (l : list json) : string + frame :=
  if forallb is_obj l then inr (records_frame (map record_of l))
  else normalize_lists L l.

Definition arr_lengths (kv : list (string * json)) : list nat :=
  flat_map (fun p => match snd p with JArr l => [length l] | _ => [] end) kv.

(** [pd.DataFrame(d)] for a mapping: each key a column; list values give
    the records and scalar values are broadcast along them. *)
Definition frame_of_dict (L : libs) (kv : list (string * json)) : string + frame :=
  match kv with
  | [] => inr (mkFrame 0 [])
  | _ =>
      if existsb (fun p => is_obj (snd p)) kv then dict_frame L kv
      else
        match arr_lengths kv with
        | [] => inl "ValueError: If using all scalar values, you must pass an index"
        | n :: ns =>
            if forallb (Nat.eqb n) ns
            then inr (mkFrame n (map (fun p => (fst p, match snd p with
                                                       | JArr l => map cell_of_json l
                                                       | j => repeat (cell_of_json j) n
                                                       end)) kv))
            else inl "ValueError: All arrays must be of the same length"
        end
  end.

(** [if isinstance(payload, list): return pd.json_normalize(payload)];
    [return pd.DataFrame(payload)]. *)
Definition build_frame (L : libs) (payload : json) : string + frame :=
  match payload with
  | JArr l => json_normalize L l
  | JObj kv => frame_of_dict L kv
  | JNull => inr (mkFrame 0 [])
  | _ => inl "ValueError: DataFrame constructor not properly called!"
  end.

(** The bytes are taken as already decoded text. *)
Definition _response_to_dataframe (L : libs) (body ct : string) : string + frame :=
  if str_contains "json" ct then
    match json_loads L body with
    | inl e => inl e
    | inr payload => build_frame L (unwrap payload)
    end
  else read_csv L body.

(** ** The session: network calls, clock and the [st.cache_data] store *)

Record world : Type := mkWorld {
  cache : list ((string * string) * (Z * frame));
  calls : nat;
  clock : Z
}.

(** Code that may raise, threading the session. *)
Definition M (A : Type) : Type := world -> world * (string + A).

Definition ret {A} (a : A) : M A := fun w => (w, inr a).

Definition lift {A} (r : string + A) : M A := fun w => (w, r).

Definition bind {A B} (m : M A) (k : A -> M B) : M B :=
  fun w => match m w with
           | (w', inl e) => (w', inl e)
           | (w', inr a) => k a w'
           end.

Notation "x <- m ;; k" := (bind m (fun x => k)) (at level 61, m at next level, right associativity).

(** [try: ... except Exception as exc: ...] *)
Definition attempt {A} (m : M A) : M (string + A) :=
  fun w => match m w with (w', r) => (w', inr r) end.

(** [requests.get(url, timeout=t)]: one network call. *)
Definition requests_get (L : libs) (url : string) (t : Z) : M response :=
  fun w => (mkWorld (cache w) (S (calls w)) (clock w), http_get L (calls w) url t).

(** [resp.raise_for_status()] *)
Definition raise_for_status (url : string) (r : response) : M unit :=
  lift (if Nat.leb 400 (status_code r) && Nat.ltb (status_code r) 500
        then inl (str_of_nat (status_code r) ++ " Client Error: " ++ reason r
                  ++ " for url: " ++ url)%string
        else if Nat.leb 500 (status_code r) && Nat.ltb (status_code r) 600
        then inl (str_of_nat (status_code r) ++ " Server Error: " ++ reason r
                  ++ " for url: " ++ url)%string
        else inr tt).

(** [harmonize_schema] raising where the model has [None]. *)
Definition or_raise (o : option frame) : string + frame :=
  match o with
  | Some f => inr f
  | None => inl "ValueError: Cannot set a DataFrame with multiple columns to the single column"
  end.

(** The body of [fetch_remote_permits] (app.py, lines 145-151). *)
Definition fetch_body (L : libs) (url state : string) : M frame :=
  resp <- requests_get L url 60 ;;
  resp <- requests_get L url 30 ;;
  _ <- raise_for_status url resp ;;
  let ct := py_lower (content_type resp) in
  raw <- lift (_response_to_dataframe L (content resp) ct) ;;
  lift (or_raise (App.harmonize_schema raw state)).

Definition key_eqb (a b : string * string) : bool :=
  String.eqb (fst a) (fst b) && String.eqb (snd a) (snd b).

Fixpoint cache_get (k : string * string) (c : list ((string * string) * (Z * frame)))
  : option (Z * frame) :=
  match c with
  | [] => None
  | (k', e) :: rest => if key_eqb k k' then Some e else cache_get k rest
  end.

Fixpoint cache_put (k : string * string) (e : Z * frame)
  (c : list ((string * string) * (Z * frame))) : list ((string * string) * (Z * frame)) :=
  match c with
  | [] => [(k, e)]
  | (k', e') :: rest => if key_eqb k k' then (k, e) :: rest else (k', e') :: cache_put k e rest
  end.

(** [ttl=60 * 60] seconds. *)
Definition TTL : Z := 60 * 60.

(** An entry is served while its age does not exceed the TTL. *)
Definition cache_lookup (k : string * string) (w : world) : option frame :=
  match cache_get k (cache w) with
  | Some (ts, f) => if Z.ltb (clock w - ts) TTL then Some f else None
  | None => None
  end.

(** [@st.cache_data(ttl=3600)] on [fetch_remote_permits(url, state)]: a live
    entry is returned without running the body; otherwise the body runs and
    a value it returns is stored. *)
Definition fetch_remote_permits (L : libs) (url state : string) : M frame :=
  fun w =>
    match cache_lookup (url, state) w with
    | Some f => (w, inr f)
    | None =>
        match fetch_body L url state w with
        | (w', inr f) => (mkWorld (cache_put (url, state) (clock w', f) (cache w'))
                                  (calls w') (clock w'), inr f)
        | (w', inl e) => (w', inl e)
        end
    end.

(** [fetch_remote_permits.clear()] *)
Definition clear_cache (w : world) : world := mkWorld [] (calls w) (clock w).

(** Time passing between page runs. *)
Definition tick (d : Z) (w : world) : world := mkWorld (cache w) (calls w) (clock w + d).

(** ingest_job.py, [fetch_remote]. *)
Definition fetch_remote (L : libs) (url state : string) : M frame :=
  resp <- requests_get L url 60 ;;
  _ <- raise_for_status url resp ;;
  raw <- lift (_response_to_dataframe L (content resp) (py_lower (content_type resp))) ;;
  fun w => (w, Ingest.harmonize_schema_exc (parse_date L) (clock w) raw state).

(** ** [load_live_data] *)

Fixpoint load_sources (L : libs) (srcs : list (string * string))
  (frames : list frame) (issues : list string) : M (list frame * list string) :=
  match srcs with
  | [] => ret (frames, issues)
  | (state, url) :: rest =>
      if String.eqb url "" then
        load_sources L rest frames (issues ++ [(state ++ " source URL is empty.")%string])
      else
        r <- attempt (fetch_remote_permits L url state) ;;
        match r with
        | inr f => load_sources L rest (frames ++ [f]) issues
        | inl exc => load_sources L rest frames (issues ++ [(state ++ " fetch failed: " ++ exc)%string])
        end
  end.

(** [pd.DataFrame(columns=REQUIRED_COLUMNS)] *)
Definition empty_required : frame := mkFrame 0 (map (fun c => (c, [])) REQUIRED_COLUMNS).

(** [pd.concat(frames, ignore_index=True)]: the union of the column names in
    order of appearance, the records of each frame in turn, missing cells
    where a frame lacks a column. *)
Definition pd_concat (frames : list frame) : frame :=
  mkFrame (list_sum (map nrows frames))
    (map (fun c => (c, concat (map (fun f => if existsb (String.eqb c) (columns f)
                                             then get_col (cols f) c
                                             else repeat VNA (nrows f)) frames)))
         (col_union (flat_map columns frames))).

Definition load_live_data (L : libs) (tx_url la_url : string) : M (frame * list string) :=
  p <- load_sources L [("TX", tx_url); ("LA", la_url)] [] [] ;;
  match p with
  | ([], issues) => ret (empty_required, issues)
  | (frames, issues) => ret (pd_concat frames, issues)
  end.

(** The outcome the specification describes for a list of sources, each
    processed in the session the previous one left. *)
Inductive processed (L : libs) : list (string * string) -> world -> world ->
                                 list frame -> list string -> Prop :=
| processed_nil w : processed L [] w w [] []
| processed_empty state rest w w' fs is :
    processed L rest w w' fs is ->
    processed L ((state, "") :: rest) w w' fs ((state ++ " source URL is empty.")%string :: is)
| processed_failed state url rest w w1 w' e fs is :
    url <> "" -> fetch_remote_permits L url state w = (w1, inl e) ->
    processed L rest w1 w' fs is ->
    processed L ((state, url) :: rest) w w' fs ((state ++ " fetch failed: " ++ e)%string :: is)
| processed_ok state url rest w w1 w' f fs is :
    url <> "" -> fetch_remote_permits L url state w = (w1, inr f) ->
    processed L rest w1 w' fs is ->
    processed L ((state, url) :: rest) w w' (f :: fs) is.

(** The records of the canonical batches one after the other. *)
Definition stack_rows (fs : list frame) : frame :=
  mkFrame (list_sum (map nrows fs))
    (map (fun c => (c, concat (map (fun f => get_col (cols f) c) fs))) REQUIRED_COLUMNS).

(** Every cached batch has the canonical columns. *)
Definition cache_ok (w : world) : Prop :=
  Forall (fun e => columns (snd (snd e)) = REQUIRED_COLUMNS) (cache w).

(** ** The synthesized identifiers read back: [int(s)] on decimal digits *)

Fixpoint py_int_acc (acc : nat) (s : string) : nat :=
  match s with
  | EmptyString => acc
  | String a r => py_int_acc (acc * 10 + (nat_of_ascii a - 48)) r
  end.

(** [int(s)] for a string of ASCII decimal digits. *)
Definition py_int (s : string) : nat := py_int_acc 0 s.

Definition is_digit (a : ascii) : bool :=
  Nat.leb 48 (nat_of_ascii a) && Nat.leb (nat_of_ascii a) 57.

Fixpoint all_digits (s : string) : bool :=
  match s with
  | EmptyString => true
  | String a r => is_digit a && all_digits r
  end.

(** ** The page's metrics (app.py, lines 275-282) *)

Module Dashboard.

(** [mask.sum()] for a boolean Series. *)
Definition count_true (m : list bool) : nat := length (filter (fun b => b) m).

(** [series <= k] on [days_to_expiry]: a null (NaN) compares false. *)
Definition le_mask (v : list val) (k : Z) : list bool :=
  map (fun x => match x with VNum z => Z.leb z k | _ => false end) v.

(** [int((data["days_to_expiry"] <= 60).sum())], the "Expiring <= 60 days"
    metric (lines 277 and 282). *)
Definition expiring_metric (data : frame) : option nat :=
  option_map (fun v => count_true (le_mask v 60)) (df_getitem data "days_to_expiry").

End Dashboard.

(** ** ingest_job.py, [main] (lines 87-105) *)

Module IngestJob.

(** [os.getenv(k, d)] *)
Definition getenv (env : string -> option string) (k d : string) : string :=
  match env k with Some v => v | None => d end.

(** [str(l)] for a list of strings without quotes or backslashes. *)
Definition py_repr_list (l : list string) : string :=
  ("[" ++ String.concat ", " (map (fun s => "'" ++ s ++ "'") l) ++ "]")%string.

(** [to_sql db_url table data] is [create_engine(db_url)] followed by
    [data.to_sql(table, con=engine, if_exists="append", index=False)]
    ([inl] is the exception either raises); the result of [main] is the line
    it prints. *)
Definition main (L : libs) (env : string -> option string)
  (to_sql : string -> string -> frame -> string + unit) : M string :=
  let tx_url := getenv env "TX_RRC_EXPORT_URL" "" in
  let la_url := getenv env "LA_SONRIS_EXPORT_URL" "" in
  let db_url := getenv env "POSTGRES_URL" "" in
  let table_name := getenv env "PERMITS_TABLE" "drilling_permits" in
  if String.eqb tx_url "" || String.eqb la_url "" then
    lift (inl "ValueError: Set TX_RRC_EXPORT_URL and LA_SONRIS_EXPORT_URL")
  else if String.eqb db_url "" then
    lift (inl "ValueError: Set POSTGRES_URL for persistence target")
  else
    a <- fetch_remote L tx_url "TX" ;;
    b <- fetch_remote L la_url "LA" ;;
    let data := pd_concat [a; b] in
    let missing := filter (fun c => negb (existsb (String.eqb c) (columns data))) REQUIRED_COLUMNS in
    match missing with
    | _ :: _ =>
        lift (inl ("ValueError: Missing required columns after harmonization: "
                   ++ py_repr_list missing)%string)
    | [] =>
        _ <- lift (to_sql db_url table_name data) ;;
        ret ("Persisted " ++ str_of_nat (nrows data) ++ " rows to " ++ table_name)%string
    end.

End IngestJob.

(** ** Concrete inputs for the runs below *)

(** A date parser for ISO dates used in the concrete runs below. *)
Definition parse_demo (v : val) : option (Z * option Z) :=
  match v with
  | VStr "2026-01-05" => Some (1767571200%Z, None)
  | VStr "2026-03-01" => Some (1772323200%Z, None)
  | VStr "2026-03-01T00:00:00-06:00" => Some (1772344800%Z, Some (-360)%Z)
  | VStr "2026-07-01T00:00:00-05:00" => Some (1782882000%Z, Some (-300)%Z)
  | _ => None
  end.

(** Two application dates written with different UTC offsets (CST, CDT). *)
Definition mixed_offset_batch : frame :=
  mkFrame 2 [("application_date", [VStr "2026-03-01T00:00:00-06:00";
                                   VStr "2026-07-01T00:00:00-05:00"]);
             ("approval_date", [VNA; VNA]);
             ("expiration_date", [VNA; VNA])].

(** A batch with an application date and no approval date. *)
Definition no_approval_batch : frame :=
  mkFrame 1 [("permit_id", [VStr "TX-1"]); ("application_date", [VStr "2026-01-05"])].

Definition demo_batch : frame :=
  mkFrame 1 [("application_date", [VStr "2026-01-05"]);
             ("approval_date", [VNA]);
             ("expiration_date", [VStr "not a date"])].

(** A one-record batch with every canonical column but [operator]. *)
Definition no_operator_batch : frame :=
  mkFrame 1 [("permit_id", [VStr "P-1"]); ("state", [VStr "TX"]);
             ("county_parish", [VNA]); ("well_name", [VNA]); ("permit_type", [VNA]);
             ("status", [VStr "Approved"]); ("application_date", [VStr "2026-01-05"]);
             ("approval_date", [VNA]); ("expiration_date", [VStr "2026-03-01"])].

(** A batch with every canonical column, rendered on 2026-01-05 at noon. *)
Definition full_batch : frame :=
  mkFrame 2 [("permit_id", [VStr "P-1"; VStr "P-2"]); ("state", [VStr "TX"; VStr "LA"]);
             ("operator", [VStr "Acme"; VNA]); ("county_parish", [VNA; VNA]);
             ("well_name", [VNA; VNA]); ("permit_type", [VNA; VNA]);
             ("status", [VStr "Approved"; VStr "Pending"]);
             ("application_date", [VStr "2026-01-05"; VNA]);
             ("approval_date", [VNA; VNA]);
             ("expiration_date", [VStr "2026-03-01"; VStr "unknown"])].

(** A source that always answers with a CSV export. *)
Definition demo_libs : libs :=
  mkLibs (fun _ _ _ => inr (mkResponse 200 "OK" "text/csv; charset=utf-8" "API,Operator_Name"))
         (fun _ => inl "JSONDecodeError: Expecting value")
         (fun _ => inr (mkFrame 1 [("API", [VStr "42-1"]); ("Operator_Name", [VStr "Acme"])]))
         (fun _ => inl "unsupported payload")
         (fun _ => inl "unsupported payload")
         parse_demo.

Definition demo_url : string := "https://example.org/permits.csv".





(** A timestamp strictly before [limit]; a null compares false. *)
Definition before (limit : Z) (x : val) : bool :=
  match x with VTime t => Z.ltb t limit | _ => false end.

(** A source whose every request fails to connect. *)
Definition offline_libs : libs :=
  mkLibs (fun _ _ _ => inl "ConnectionError: Max retries exceeded")
         (json_loads demo_libs) (read_csv demo_libs) (dict_frame demo_libs)
         (normalize_lists demo_libs) (parse_date demo_libs).

(** The columns of a batch [fetch_remote] returns. *)
Definition INGEST_COLUMNS : list string := REQUIRED_COLUMNS ++ ["ingested_at_utc"].

(** An environment with both source URLs and the database URL set. *)
Definition demo_env (k : string) : option string :=
  if String.eqb k "TX_RRC_EXPORT_URL" then Some demo_url
  else if String.eqb k "LA_SONRIS_EXPORT_URL" then Some demo_url
  else if String.eqb k "POSTGRES_URL" then Some "postgresql://etl@db/permits"
  else None.

(** A batch whose columns are aliases in another case. *)
Definition alias_batch : frame :=
  mkFrame 1 [("API", [VStr "42-1"]); ("Expiry_Date", [VStr "2026-03-01"])].

(** * Proofs *)

Example fmt06_1 : fmt06 1 = "000001"%string.
Proof. reflexivity. Qed.

Example find_api :
  _find_alias_column ["  API_Number "; "Operator"] (snd (hd ("", []) COLUMN_ALIASES))
  = Some "  API_Number "%string.
Proof. reflexivity. Qed.

(** ** Harmonizer: structure lemmas *)

Lemma set_col_absent cs c v :
  ~ In c (map fst cs) -> set_col cs c v = cs ++ [(c, v)].
Proof.
  induction cs as [|[c' v'] cs IH]; simpl; intros Hn; [reflexivity|].
  destruct (String.eqb_spec c c') as [->|Hne]; [tauto|].
  rewrite IH by tauto. reflexivity.
Qed.

Lemma resolve_cols df al n cs :
  NoDup (map fst al) ->
  (forall t, In t (map fst al) -> ~ In t (map fst cs)) ->
  resolve df al (mkFrame n cs)
  = option_map (fun rc => mkFrame n (cs ++ rc)) (resolved_cols df al).
Proof.
  revert cs. induction al as [|[t cands] al IH]; intros cs Hnd Hdis; simpl.
  - rewrite app_nil_r. reflexivity.
  - inversion Hnd as [|? ? Hnin Hnd']; subst.
    unfold source_values.
    assert (Hs : forall v, frame_set (mkFrame n cs) t v = mkFrame n (cs ++ [(t, v)])).
    { intros v. unfold frame_set. simpl. rewrite set_col_absent; [reflexivity|].
      apply Hdis. left. reflexivity. }
    assert (Hd : forall v t', In t' (map fst al) -> ~ In t' (map fst (cs ++ [(t, v)]))).
    { intros v t' Hin. rewrite map_app, in_app_iff. simpl. intros [H|[H|H]].
      - apply (Hdis t'); [right; exact Hin | exact H].
      - subst. contradiction.
      - exact H. }
    destruct (_find_alias_column (columns df) cands) as [s|].
    + destruct (df_getitem df s) as [v|]; [|reflexivity].
      rewrite Hs, IH by auto.
      destruct (resolved_cols df al); simpl; [rewrite <- app_assoc|]; reflexivity.
    + rewrite Hs, IH by auto.
      destruct (resolved_cols df al); simpl; [rewrite <- app_assoc|]; reflexivity.
Qed.

Lemma resolved_cols_shape df al rc :
  resolved_cols df al = Some rc ->
  exists vs, rc = combine (map fst al) vs /\
             Forall2 (fun cands v => source_values df cands = Some v) (map snd al) vs.
Proof.
  revert rc. induction al as [|[t cands] al IH]; intros rc H; simpl in H.
  - injection H as <-. exists []. split; [reflexivity | constructor].
  - destruct (source_values df cands) as [v|] eqn:Hv; [|discriminate].
    destruct (resolved_cols df al) as [rc'|]; simpl in H; [|discriminate].
    injection H as <-. destruct (IH rc' eq_refl) as [vs [-> Hf]].
    exists (v :: vs). split; [reflexivity | constructor; assumption].
Qed.

Lemma App_harmonize_resolved df fs :
  App.harmonize_schema df fs
  = match resolved_cols df COLUMN_ALIASES with
    | None => None
    | Some rc =>
        let out := mkFrame (nrows df) rc in
        let out := fill_col "state" fs out in
        let out := fill_col "status" "Pending" out in
        let out := fill_col "permit_type" "Unknown" out in
        let out := fill_col "operator" "Unknown Operator" out in
        let out := fill_col "county_parish" "Unknown" out in
        let out := fill_col "well_name" "Unknown Well" out in
        Some (synthesize_ids fs out)
    end.
Proof.
  unfold App.harmonize_schema. rewrite resolve_cols.
  - destruct (resolved_cols df COLUMN_ALIASES); reflexivity.
  - vm_compute. repeat constructor; simpl; intuition discriminate.
  - intros t _ [].
Qed.

Lemma App_harmonize_some df fs out :
  App.harmonize_schema df fs = Some out ->
  exists vs, sources_ok df vs /\ out = mkFrame (nrows df) (app_out_cols fs (nrows df) vs).
Proof.
  rewrite App_harmonize_resolved.
  destruct (resolved_cols df COLUMN_ALIASES) as [rc|] eqn:Hrc; [|discriminate].
  intros H. injection H as <-.
  destruct (resolved_cols_shape _ _ _ Hrc) as [vs [-> Hf]].
  exists vs.
  inversion Hf as [|? v1 ? vs1 H1 Hf1]; subst.
  inversion Hf1 as [|? v2 ? vs2 H2 Hf2]; subst.
  inversion Hf2 as [|? v3 ? vs3 H3 Hf3]; subst.
  inversion Hf3 as [|? v4 ? vs4 H4 Hf4]; subst.
  inversion Hf4 as [|? v5 ? vs5 H5 Hf5]; subst.
  inversion Hf5 as [|? v6 ? vs6 H6 Hf6]; subst.
  inversion Hf6 as [|? v7 ? vs7 H7 Hf7]; subst.
  inversion Hf7 as [|? v8 ? vs8 H8 Hf8]; subst.
  inversion Hf8 as [|? v9 ? vs9 H9 Hf9]; subst.
  inversion Hf9 as [|? v10 ? vs10 H10 Hf10]; subst.
  inversion Hf10; subst.
  split; [repeat (constructor; [assumption|]); constructor|].
  unfold synthesize_ids, fill_col, frame_set. cbn -[fillna forallb auto_ids].
  destruct (forallb is_na v1); reflexivity.
Qed.

Ltac split_sources Hf :=
  let rec go H :=
    lazymatch type of H with
    | Forall2 _ (_ :: _) _ =>
        let v := fresh "v" in let Hv := fresh "Hv" in let H' := fresh "Hf" in
        inversion H as [|? v ? ? Hv H']; subst; clear H; go H'
    | Forall2 _ [] _ => inversion H; subst; clear H
    end in
  go Hf.

Lemma Ingest_harmonize_some parse now df fs out :
  Ingest.harmonize_schema parse now df fs = Some out ->
  exists vs, sources_ok df vs /\
             out = mkFrame (nrows df) (ingest_out_cols parse now fs (nrows df) vs).
Proof.
  unfold Ingest.harmonize_schema, Ingest.harmonize_schema_exc. rewrite resolve_cols.
  2: { vm_compute. repeat constructor; simpl; intuition discriminate. }
  2: { intros t _ []. }
  destruct (resolved_cols df COLUMN_ALIASES) as [rc|] eqn:Hrc; simpl; [|discriminate].
  intros H.
  destruct (resolved_cols_shape _ _ _ Hrc) as [vs [-> Hf]].
  exists vs. unfold sources_ok. cbn in Hf. split_sources Hf.
  split; [repeat (constructor; [assumption|]); constructor|].
  unfold synthesize_ids, fill_col, frame_set in H.
  cbn -[fillna forallb auto_ids to_datetime to_datetime_checked] in H.
  destruct (forallb is_na v) eqn:Ep;
    cbn -[fillna forallb auto_ids to_datetime to_datetime_checked] in H;
    unfold to_datetime_checked in H;
    repeat match type of H with
           | context [mixed_offsets ?p ?x] => destruct (mixed_offsets p x); [discriminate H|]
           end;
    injection H as <-; cbn [ingest_out_cols]; rewrite Ep; reflexivity.
Qed.

Lemma sources_ok_length df vs : sources_ok df vs -> length vs = 10.
Proof. intros H. apply Forall2_length in H. rewrite <- H. reflexivity. Qed.

(** *** Alias lookup *)

Lemma dict_get_set {A} (d : list (string * A)) k k' v :
  dict_get k (dict_set d k' v) = if String.eqb k k' then Some v else dict_get k d.
Proof.
  induction d as [|[k0 v0] d IH]; simpl.
  - reflexivity.
  - destruct (String.eqb_spec k' k0) as [->|Hne]; simpl.
    + destruct (String.eqb k k0); reflexivity.
    + rewrite IH. destruct (String.eqb_spec k k'), (String.eqb_spec k k0); congruence.
Qed.

Lemma alias_lookup_get k cs : dict_get k (alias_lookup cs) = last_match k cs.
Proof.
  unfold alias_lookup, last_match.
  assert (G : forall d, dict_get k (fold_left (fun d c => dict_set d (norm c) c) cs d)
                = fold_left (fun acc c => if String.eqb k (norm c) then Some c else acc)
                    cs (dict_get k d)).
  { induction cs as [|c cs IH]; intros d; simpl; [reflexivity|].
    rewrite IH, dict_get_set. reflexivity. }
  apply G.
Qed.

Lemma last_match_some k cs c :
  last_match k cs = Some c ->
  exists l1 l2, cs = l1 ++ c :: l2 /\ norm c = k /\ forall c', In c' l2 -> norm c' <> k.
Proof.
  unfold last_match. induction cs as [|x cs IH] using rev_ind; simpl; [discriminate|].
  rewrite fold_left_app. simpl. destruct (String.eqb_spec k (norm x)) as [Hk|Hk].
  - intros H. injection H as <-. exists cs, []. split; [reflexivity|].
    split; [symmetry; exact Hk | intros ? []].
  - intros H. destruct (IH H) as [l1 [l2 [-> [Hn Hl]]]].
    exists l1, (l2 ++ [x]). split; [rewrite <- app_assoc; reflexivity|].
    split; [exact Hn|]. intros c' Hc'. apply in_app_or in Hc' as [Hc'|[<-|[]]].
    + apply Hl, Hc'.
    + intros E. apply Hk. symmetry. exact E.
Qed.

Lemma last_match_none k cs :
  last_match k cs = None -> forall c, In c cs -> norm c <> k.
Proof.
  unfold last_match. induction cs as [|x cs IH] using rev_ind; simpl; [tauto|].
  rewrite fold_left_app. simpl. destruct (String.eqb_spec k (norm x)) as [Hk|Hk];
    [discriminate|].
  intros H c Hc. apply in_app_or in Hc as [Hc|[<-|[]]].
  - apply IH; assumption.
  - intros E. apply Hk. symmetry. exact E.
Qed.

Lemma last_match_found k cs c :
  In c cs -> norm c = k -> exists c', last_match k cs = Some c'.
Proof.
  intros Hin Hn. destruct (last_match k cs) as [c'|] eqn:E; [eauto|].
  exfalso. exact (last_match_none _ _ E c Hin Hn).
Qed.

Lemma find_alias_some cs cands c :
  _find_alias_column cs cands = Some c ->
  exists pre k post,
    cands = pre ++ k :: post /\
    (forall k' c', In k' pre -> In c' cs -> norm c' <> norm k') /\
    last_match (norm k) cs = Some c.
Proof.
  unfold _find_alias_column. induction cands as [|k cands IH]; simpl; [discriminate|].
  rewrite alias_lookup_get. destruct (last_match (norm k) cs) as [c0|] eqn:Hk.
  - intros H. injection H as <-. exists [], k, cands. split; [reflexivity|].
    split; [intros ? ? []|exact Hk].
  - intros H. destruct (IH H) as [pre [k1 [post [-> [Hpre Hl]]]]].
    exists (k :: pre), k1, post. split; [reflexivity|]. split; [|exact Hl].
    intros k' c' [<-|Hin] Hc'.
    + exact (last_match_none _ _ Hk c' Hc').
    + exact (Hpre k' c' Hin Hc').
Qed.

Lemma find_alias_none cs cands :
  _find_alias_column cs cands = None <->
  forall k c, In k cands -> In c cs -> norm c <> norm k.
Proof.
  unfold _find_alias_column. induction cands as [|k cands IH]; simpl.
  - split; [intros _ ? ? []|reflexivity].
  - rewrite alias_lookup_get. destruct (last_match (norm k) cs) as [c0|] eqn:Hk.
    + split; [discriminate|]. intros H.
      destruct (last_match_some _ _ _ Hk) as [l1 [l2 [Hcs [Hn _]]]].
      exfalso. apply (H k c0); [left; reflexivity| |exact Hn].
      rewrite Hcs. apply in_or_app. right. left. reflexivity.
    + rewrite IH. split.
      * intros H k' c [<-|Hin] Hc.
        -- exact (last_match_none _ _ Hk c Hc).
        -- exact (H k' c Hin Hc).
      * intros H k' c Hin Hc. apply H; [right|]; assumption.
Qed.

Lemma find_alias_in cs cands c : _find_alias_column cs cands = Some c -> In c cs.
Proof.
  intros H. destruct (find_alias_some _ _ _ H) as [pre [k [post [_ [_ Hl]]]]].
  destruct (last_match_some _ _ _ Hl) as [l1 [l2 [-> _]]].
  apply in_or_app. right. left. reflexivity.
Qed.

(** *** Column access in a frame with distinct names *)

Lemma getitem_unique (cs : list (string * list val)) s :
  NoDup (map fst cs) -> In s (map fst cs) ->
  exists v, filter (fun p => String.eqb (fst p) s) cs = [(s, v)].
Proof.
  induction cs as [|[c v] cs IH]; simpl; [tauto|]. intros Hnd Hin.
  inversion Hnd as [|? ? Hnin Hnd']; subst.
  destruct (String.eqb_spec c s) as [->|Hne].
  - exists v. f_equal.
    assert (F : forall l : list (string * list val),
               ~ In s (map fst l) -> filter (fun p => String.eqb (fst p) s) l = []).
    { induction l as [|[c' v'] l IHl]; simpl; [reflexivity|]. intros Hn.
      destruct (String.eqb_spec c' s); [tauto|]. apply IHl. tauto. }
    apply F, Hnin.
  - destruct Hin as [Heq|Hin]; [congruence|]. apply IH; assumption.
Qed.










Lemma App_harmonize_columns df fs out :
  App.harmonize_schema df fs = Some out -> columns out = REQUIRED_COLUMNS.
Proof.
  intros H. destruct (App_harmonize_some _ _ _ H) as [vs [Hs ->]].
  pose proof (sources_ok_length _ _ Hs) as Hl.
  destruct vs as [|v1 [|v2 [|v3 [|v4 [|v5 [|v6 [|v7 [|v8 [|v9 [|v10 [|]]]]]]]]]]];
    try discriminate Hl.
  reflexivity.
Qed.

Lemma Ingest_harmonize_columns parse now df fs out :
  Ingest.harmonize_schema parse now df fs = Some out ->
  columns out = REQUIRED_COLUMNS ++ ["ingested_at_utc"].
Proof.
  intros H. destruct (Ingest_harmonize_some _ _ _ _ _ H) as [vs [Hs ->]].
  pose proof (sources_ok_length _ _ Hs) as Hl.
  destruct vs as [|v1 [|v2 [|v3 [|v4 [|v5 [|v6 [|v7 [|v8 [|v9 [|v10 [|]]]]]]]]]]];
    try discriminate Hl.
  reflexivity.
Qed.

(** ** C1 *)




Lemma auto_ids_length fs n : length (auto_ids fs n) = n.
Proof. unfold auto_ids. rewrite length_map, length_seq. reflexivity. Qed.

Lemma auto_ids_nth fs n i :
  i < n -> nth i (auto_ids fs n) VNA = VStr (fs ++ "-AUTO-" ++ fmt06 (i + 1))%string.
Proof.
  intros Hi. unfold auto_ids.
  rewrite (nth_indep _ VNA (VStr (fs ++ "-AUTO-" ++ fmt06 (0 + 1))%string))
    by (rewrite length_map, length_seq; exact Hi).
  rewrite (map_nth (fun i => VStr (fs ++ "-AUTO-" ++ fmt06 (i + 1))%string)).
  rewrite seq_nth by exact Hi. reflexivity.
Qed.

Lemma App_permit_id df fs out pid :
  App.harmonize_schema df fs = Some out ->
  source_values df (aliases_of "permit_id") = Some pid ->
  get_col (cols out) "permit_id" = if forallb is_na pid then auto_ids fs (nrows df) else pid.
Proof.
  intros H Hp. destruct (App_harmonize_some _ _ _ H) as [vs [Hs ->]].
  pose proof (sources_ok_length _ _ Hs) as Hl.
  destruct vs as [|v1 [|v2 [|v3 [|v4 [|v5 [|v6 [|v7 [|v8 [|v9 [|v10 [|]]]]]]]]]]];
    try discriminate Hl.
  inversion Hs as [|? ? ? ? H1 _]; subst.
  rewrite Hp in H1. injection H1 as <-. reflexivity.
Qed.

Lemma Ingest_permit_id parse now df fs out pid :
  Ingest.harmonize_schema parse now df fs = Some out ->
  source_values df (aliases_of "permit_id") = Some pid ->
  get_col (cols out) "permit_id" = if forallb is_na pid then auto_ids fs (nrows df) else pid.
Proof.
  intros H Hp. destruct (Ingest_harmonize_some _ _ _ _ _ H) as [vs [Hs ->]].
  pose proof (sources_ok_length _ _ Hs) as Hl.
  destruct vs as [|v1 [|v2 [|v3 [|v4 [|v5 [|v6 [|v7 [|v8 [|v9 [|v10 [|]]]]]]]]]]];
    try discriminate Hl.
  inversion Hs as [|? ? ? ? H1 _]; subst.
  rewrite Hp in H1. injection H1 as <-. reflexivity.
Qed.

(** ** C2 *)

(** C2.  Let [pid] be the permit_id values after alias resolution.  If every
    one is null, both harmonizers replace the permit_id column by one value
    per record, the record at position [i] (from 0) getting
    [{fallback_state}-AUTO-{i+1:06d}], so the sequence number runs 1, 2, 3 ...
    in record order; if at least one is non-null, the column is exactly
    [pid]: nothing is synthesized and null entries stay null. *)
Theorem harmonize_schema_permit_ids (df : frame) (fs : string) (pid : list val)
  (Hp : source_values df (aliases_of "permit_id") = Some pid) :
  (forall out, App.harmonize_schema df fs = Some out ->
     (forallb is_na pid = true ->
        length (get_col (cols out) "permit_id") = nrows df /\
        forall i, i < nrows df ->
          nth i (get_col (cols out) "permit_id") VNA
          = VStr (fs ++ "-AUTO-" ++ fmt06 (i + 1))%string) /\
     (forallb is_na pid = false ->
        get_col (cols out) "permit_id" = pid /\
        forall i, nth i pid VNA = VNA -> nth i (get_col (cols out) "permit_id") VNA = VNA)) /\
  (forall parse now out, Ingest.harmonize_schema parse now df fs = Some out ->
     (forallb is_na pid = true ->
        length (get_col (cols out) "permit_id") = nrows df /\
        forall i, i < nrows df ->
          nth i (get_col (cols out) "permit_id") VNA
          = VStr (fs ++ "-AUTO-" ++ fmt06 (i + 1))%string) /\
     (forallb is_na pid = false ->
        get_col (cols out) "permit_id" = pid /\
        forall i, nth i pid VNA = VNA -> nth i (get_col (cols out) "permit_id") VNA = VNA)).
Proof.
  split; [intros out H | intros parse now out H];
    [rewrite (App_permit_id _ _ _ _ H Hp) | rewrite (Ingest_permit_id _ _ _ _ _ _ H Hp)];
    (split; intros Hb; rewrite Hb;
     [split; [apply auto_ids_length | intros i Hi; apply auto_ids_nth, Hi]
     |split; [reflexivity | intros i Hi; exact Hi]]).
Qed.

Lemma harmonize_schema_permit_ids_witness :
  source_values (mkFrame 2 [("Well", [VStr "W1"; VStr "W2"])]) (aliases_of "permit_id")
    = Some [VNA; VNA] /\
  (forall out, App.harmonize_schema (mkFrame 2 [("Well", [VStr "W1"; VStr "W2"])]) "LA"
                 = Some out ->
     nth 1 (get_col (cols out) "permit_id") VNA = VStr "LA-AUTO-000002").
Proof.
  assert (Hp : source_values (mkFrame 2 [("Well", [VStr "W1"; VStr "W2"])])
                 (aliases_of "permit_id") = Some [VNA; VNA]) by reflexivity.
  split; [exact Hp|].
  intros out Hout.
  destruct (proj1 (harmonize_schema_permit_ids _ "LA" _ Hp) out Hout) as [Hall _].
  exact (proj2 (Hall eq_refl) 1 ltac:(simpl; lia)).
Defined.

Lemma last_match_absent k cs :
  (forall c, In c cs -> norm c <> k) -> last_match k cs = None.
Proof.
  intros H. destruct (last_match k cs) as [c|] eqn:E; [|reflexivity].
  destruct (last_match_some _ _ _ E) as [l1 [l2 [-> [Hn _]]]].
  exfalso. apply (H c); [apply in_or_app; right; left; reflexivity | exact Hn].
Qed.

Lemma find_alias_first cs pre k post :
  (forall k' c', In k' pre -> In c' cs -> norm c' <> norm k') ->
  (exists c', In c' cs /\ norm c' = norm k) ->
  exists c, _find_alias_column cs (pre ++ k :: post) = Some c /\
            last_match (norm k) cs = Some c.
Proof.
  unfold _find_alias_column. intros Hpre [c' [Hin Hn]].
  induction pre as [|k0 pre IH]; simpl.
  - rewrite alias_lookup_get.
    destruct (last_match_found _ _ _ Hin Hn) as [c Hc]. rewrite Hc. eauto.
  - rewrite alias_lookup_get, last_match_absent.
    + apply IH. intros k' c'' Hk'. apply Hpre. right. exact Hk'.
    + intros c Hc. apply (Hpre k0 c); [left; reflexivity | exact Hc].
Qed.

(** ** C9 *)

(** C9.  [_find_alias_column] returns a column exactly when some candidate's
    key [c.lower().strip()] equals some column's key; the chosen candidate is
    the first such one in the alias list (every earlier candidate matches no
    column), and the column returned carries that key (the last column with
    that key, as the lookup dict keeps the last one).  A column literally
    named ["  API_Number "] is the one the permit_id aliases resolve to when
    no other column has one of the keys permit_id, permit_number, permit_no
    or api_number.  When no candidate matches, the loop stores a column of
    nulls, one per record, under the canonical name. *)
Theorem alias_resolution (cs cands : list string) :
  (forall c, _find_alias_column cs cands = Some c ->
     exists pre k post,
       cands = pre ++ k :: post /\
       (forall k' c', In k' pre -> In c' cs -> norm c' <> norm k') /\
       In c cs /\ norm c = norm k /\
       exists l1 l2, cs = l1 ++ c :: l2 /\ forall c', In c' l2 -> norm c' <> norm k) /\
  (forall pre k post, cands = pre ++ k :: post ->
     (forall k' c', In k' pre -> In c' cs -> norm c' <> norm k') ->
     (exists c', In c' cs /\ norm c' = norm k) ->
     exists c, _find_alias_column cs cands = Some c /\ In c cs /\ norm c = norm k) /\
  (_find_alias_column cs cands = None <->
     forall k c, In k cands -> In c cs -> norm c <> norm k) /\
  norm "  API_Number " = "api_number" /\
  (forall df, In "  API_Number " (columns df) ->
     (forall c, In c (columns df) ->
        In (norm c) ["permit_id"; "permit_number"; "permit_no"; "api_number"] ->
        c = "  API_Number ") ->
     _find_alias_column (columns df) (aliases_of "permit_id") = Some "  API_Number " /\
     source_values df (aliases_of "permit_id") = df_getitem df "  API_Number ") /\
  (forall df t, _find_alias_column (columns df) (aliases_of t) = None ->
     source_values df (aliases_of t) = Some (repeat VNA (nrows df))).
Proof.
  assert (Hapi : norm "  API_Number " = "api_number") by reflexivity.
  split; [|split; [|split; [|split; [exact Hapi|split]]]].
  - intros c H. destruct (find_alias_some _ _ _ H) as [pre [k [post [Hc [Hpre Hl]]]]].
    destruct (last_match_some _ _ _ Hl) as [l1 [l2 [Hcs [Hn Hl2]]]].
    exists pre, k, post. split; [exact Hc|]. split; [exact Hpre|].
    split; [rewrite Hcs; apply in_or_app; right; left; reflexivity|].
    split; [exact Hn|]. exists l1, l2. split; assumption.
  - intros pre k post -> Hpre Hex.
    destruct (find_alias_first cs pre k post Hpre Hex) as [c [Hf Hl]].
    exists c. split; [exact Hf|]. split; [exact (find_alias_in _ _ _ Hf)|].
    destruct (last_match_some _ _ _ Hl) as [_ [_ [_ [Hn _]]]]. exact Hn.
  - apply find_alias_none.
  - intros df Hin Honly.
    assert (Hf : _find_alias_column (columns df) (aliases_of "permit_id")
                 = Some "  API_Number ").
    { change (aliases_of "permit_id")
        with (["permit_id"; "permit_number"; "permit_no"] ++ "api_number" :: ["api"]).
      destruct (find_alias_first (columns df) ["permit_id"; "permit_number"; "permit_no"]
                  "api_number" ["api"]) as [c [Hf Hl]].
      + intros k' c' Hk' Hc' E.
        assert (Ec : c' = "  API_Number ").
        { apply Honly; [exact Hc'|]. rewrite E.
          destruct Hk' as [<-|[<-|[<-|[]]]]; simpl; tauto. }
        subst c'. rewrite Hapi in E.
        destruct Hk' as [<-|[<-|[<-|[]]]]; discriminate E.
      + exists "  API_Number ". split; [exact Hin | exact Hapi].
      + rewrite Hf. f_equal. apply Honly.
        * exact (find_alias_in _ _ _ Hf).
        * destruct (last_match_some _ _ _ Hl) as [_ [_ [_ [Hn _]]]].
          rewrite Hn. simpl. tauto. }
    split; [exact Hf|]. unfold source_values. rewrite Hf. reflexivity.
  - intros df t H. unfold source_values. rewrite H. reflexivity.
Qed.

(** ** Record-wise view: lemmas *)

Lemma nth_fillna v x i :
  i < length v -> nth i (fillna v x) VNA = fill_cell (nth i v VNA) x.
Proof.
  intros Hi. unfold fillna.
  rewrite (nth_indep _ VNA (fill_cell VNA x)) by (rewrite length_map; exact Hi).
  apply (map_nth (fun e => fill_cell e x)).
Qed.

Lemma nth_to_datetime parse v i :
  i < length v -> nth i (to_datetime parse v) VNA = date_cell parse (nth i v VNA).
Proof.
  intros Hi. unfold to_datetime.
  rewrite (nth_indep _ VNA (date_cell parse VNA)) by (rewrite length_map; exact Hi).
  apply (map_nth (date_cell parse)).
Qed.

Lemma getitem_row f s v i :
  df_getitem f s = Some v -> dict_get s (frame_row f i) = Some (nth i v VNA).
Proof.
  unfold df_getitem, frame_row. destruct f as [n cs]; simpl.
  induction cs as [|[c w] cs IH]; simpl; [discriminate|].
  destruct (String.eqb_spec c s) as [->|Hne]; simpl.
  - rewrite String.eqb_refl.
    destruct (filter (fun p => String.eqb (fst p) s) cs); [|discriminate].
    intros H. injection H as <-. reflexivity.
  - destruct (String.eqb_spec s c); [congruence|]. exact IH.
Qed.

Lemma getitem_length f s v :
  wf f -> df_getitem f s = Some v -> length v = nrows f.
Proof.
  unfold wf, df_getitem. intros Hwf.
  destruct (filter (fun p => String.eqb (fst p) s) (cols f)) as [|[x w] [|]] eqn:E;
    try discriminate.
  intros H. injection H as <-.
  assert (Hin : In (x, w) (cols f)).
  { apply (proj1 (filter_In (fun p => String.eqb (fst p) s) (x, w) (cols f))).
    rewrite E. left. reflexivity. }
  rewrite Forall_forall in Hwf. exact (Hwf _ Hin).
Qed.

Lemma source_values_row df t v i :
  wf df -> source_values df (aliases_of t) = Some v -> i < nrows df ->
  length v = nrows df /\ nth i v VNA = resolved_cell (columns df) (frame_row df i) t.
Proof.
  intros Hwf Hv Hi. unfold source_values, resolved_cell in *.
  destruct (_find_alias_column (columns df) (aliases_of t)) as [s|].
  - split; [exact (getitem_length _ _ _ Hwf Hv)|].
    unfold row_get. rewrite (getitem_row _ _ _ i Hv). reflexivity.
  - injection Hv as <-. rewrite repeat_length. split; [reflexivity|].
    apply nth_repeat.
Qed.

Ltac ten_sources Hs :=
  let Hl := fresh "Hl" in
  pose proof (sources_ok_length _ _ Hs) as Hl;
  match type of Hs with sources_ok _ ?vs =>
    destruct vs as [|v1 [|v2 [|v3 [|v4 [|v5 [|v6 [|v7 [|v8 [|v9 [|v10 [|]]]]]]]]]]];
    try discriminate Hl; clear Hl
  end;
  unfold sources_ok in Hs;
  inversion Hs as [|? ? ? ? H1 Hs1]; subst; clear Hs;
  inversion Hs1 as [|? ? ? ? H2 Hs2]; subst; clear Hs1;
  inversion Hs2 as [|? ? ? ? H3 Hs3]; subst; clear Hs2;
  inversion Hs3 as [|? ? ? ? H4 Hs4]; subst; clear Hs3;
  inversion Hs4 as [|? ? ? ? H5 Hs5]; subst; clear Hs4;
  inversion Hs5 as [|? ? ? ? H6 Hs6]; subst; clear Hs5;
  inversion Hs6 as [|? ? ? ? H7 Hs7]; subst; clear Hs6;
  inversion Hs7 as [|? ? ? ? H8 Hs8]; subst; clear Hs7;
  inversion Hs8 as [|? ? ? ? H9 Hs9]; subst; clear Hs8;
  inversion Hs9 as [|? ? ? ? H10 Hs10]; subst; clear Hs9; clear Hs10.

Lemma App_harmonize_rows df fs out :
  wf df -> App.harmonize_schema df fs = Some out ->
  nrows out = nrows df /\ wf out /\
  forall i, i < nrows df ->
    frame_row out i = app_row (columns df) (permit_ids_all_na df) fs i (frame_row df i).
Proof.
  intros Hwf H. destruct (App_harmonize_some _ _ _ H) as [vs [Hs ->]]. clear H.
  ten_sources Hs.
  assert (Hsyn : permit_ids_all_na df = forallb is_na v1)
    by (unfold permit_ids_all_na; rewrite H1; reflexivity).
  assert (L : forall t v, source_values df (aliases_of t) = Some v -> length v = nrows df).
  { intros t v Hv. unfold source_values in Hv.
    destruct (_find_alias_column (columns df) (aliases_of t)).
    - exact (getitem_length _ _ _ Hwf Hv).
    - injection Hv as <-. apply repeat_length. }
  split; [reflexivity|]. split.
  - unfold wf. simpl.
    repeat constructor; simpl; unfold fillna; try rewrite length_map; eauto.
    destruct (forallb is_na v1); [apply auto_ids_length | eauto].
  - intros i Hi. rewrite Hsyn. unfold frame_row at 1. unfold app_row. simpl.
    repeat rewrite nth_fillna by (erewrite L; eauto).
    destruct (forallb is_na v1); [rewrite auto_ids_nth by exact Hi|];
    repeat match goal with
           | Hv : source_values df (aliases_of ?t) = Some ?v |- _ =>
               rewrite (proj2 (source_values_row df t v i Hwf Hv Hi)); clear Hv
           end; reflexivity.
Qed.

Lemma Ingest_harmonize_rows parse now df fs out :
  wf df -> Ingest.harmonize_schema parse now df fs = Some out ->
  nrows out = nrows df /\ wf out /\
  forall i, i < nrows df ->
    frame_row out i
    = ingest_row parse now (columns df) (permit_ids_all_na df) fs i (frame_row df i).
Proof.
  intros Hwf H. destruct (Ingest_harmonize_some _ _ _ _ _ H) as [vs [Hs ->]]. clear H.
  ten_sources Hs.
  assert (Hsyn : permit_ids_all_na df = forallb is_na v1)
    by (unfold permit_ids_all_na; rewrite H1; reflexivity).
  assert (L : forall t v, source_values df (aliases_of t) = Some v -> length v = nrows df).
  { intros t v Hv. unfold source_values in Hv.
    destruct (_find_alias_column (columns df) (aliases_of t)).
    - exact (getitem_length _ _ _ Hwf Hv).
    - injection Hv as <-. apply repeat_length. }
  split; [reflexivity|]. split.
  - unfold wf. simpl.
    repeat constructor; simpl; unfold fillna, to_datetime; try rewrite length_map;
      try apply repeat_length; eauto.
    destruct (forallb is_na v1); [apply auto_ids_length | eauto].
  - intros i Hi. rewrite Hsyn. unfold frame_row at 1. unfold ingest_row. simpl.
    repeat rewrite nth_fillna by (erewrite L; eauto).
    repeat rewrite nth_to_datetime by (erewrite L; eauto).
    rewrite (nth_indep (repeat (VTime now) (nrows df)) VNA (VTime now))
      by (rewrite repeat_length; exact Hi).
    rewrite nth_repeat.
    destruct (forallb is_na v1); [rewrite auto_ids_nth by exact Hi|];
    repeat match goal with
           | Hv : source_values df (aliases_of ?t) = Some ?v |- _ =>
               rewrite (proj2 (source_values_row df t v i Hwf Hv Hi)); clear Hv
           end; reflexivity.
Qed.

(** ** Normalization: lemmas *)

Lemma getitem_none_rest (cs : list (string * list val)) c :
  filter (fun p => String.eqb (fst p) c) cs = [] -> ~ In c (map fst cs).
Proof.
  induction cs as [|[c' v'] cs IH]; simpl; [tauto|].
  destruct (String.eqb_spec c' c); [discriminate|]. intros H [E|Hin]; [congruence|].
  exact (IH H Hin).
Qed.

Lemma map_replace_absent cs c w :
  ~ In c (map fst cs) -> map (replace_named c w) cs = cs.
Proof.
  induction cs as [|[c' v'] cs IH]; simpl; [reflexivity|]. intros Hn.
  unfold replace_named at 1. simpl.
  destruct (String.eqb_spec c' c); [subst; tauto|]. rewrite IH by tauto. reflexivity.
Qed.

Lemma set_col_getitem f c v w :
  df_getitem f c = Some v -> set_col (cols f) c w = map (replace_named c w) (cols f).
Proof.
  unfold df_getitem. destruct f as [n cs]; simpl.
  induction cs as [|[c' v'] cs IH]; simpl; [discriminate|].
  unfold replace_named at 1. simpl.
  destruct (String.eqb_spec c' c) as [->|Hne]; simpl.
  - rewrite String.eqb_refl.
    destruct (filter (fun p => String.eqb (fst p) c) cs) eqn:E; [|discriminate].
    intros _. rewrite map_replace_absent by (apply getitem_none_rest; exact E).
    reflexivity.
  - destruct (String.eqb_spec c c'); [congruence|]. intros H. rewrite (IH H). reflexivity.
Qed.

Lemma filter_map_same {A} (P : A -> bool) (h : A -> A) l :
  (forall p, P (h p) = P p) -> filter P (map h l) = map h (filter P l).
Proof.
  intros H. induction l as [|a l IH]; simpl; [reflexivity|].
  rewrite H. destruct (P a); simpl; rewrite IH; reflexivity.
Qed.

Lemma filter_replace cs c w :
  filter (fun p => String.eqb (fst p) c) (map (replace_named c w) cs)
  = map (replace_named c w) (filter (fun p => String.eqb (fst p) c) cs).
Proof.
  apply filter_map_same. intros [c' v']. unfold replace_named. simpl.
  destruct (String.eqb_spec c' c) as [->|Hne]; simpl; [rewrite String.eqb_refl; reflexivity|].
  apply String.eqb_neq. exact Hne.
Qed.

Lemma getitem_set_same f c v w :
  df_getitem f c = Some v -> df_getitem (frame_set f c w) c = Some w.
Proof.
  intros H. unfold frame_set. rewrite (set_col_getitem _ _ _ w H).
  revert H. unfold df_getitem. simpl. rewrite filter_replace.
  destruct (filter (fun p => String.eqb (fst p) c) (cols f)) as [|[x v0] [|]] eqn:E; simpl;
    try discriminate. intros _. unfold replace_named. simpl.
  assert (Hx : String.eqb x c = true).
  { apply (proj2 (proj1 (filter_In (fun p => String.eqb (fst p) c) (x, v0) (cols f))
                   ltac:(rewrite E; left; reflexivity))). }
  rewrite Hx. reflexivity.
Qed.

Lemma filter_replace_other cs c c' w :
  c <> c' ->
  filter (fun p => String.eqb (fst p) c') (map (replace_named c w) cs)
  = filter (fun p => String.eqb (fst p) c') cs.
Proof.
  intros Hne. induction cs as [|[c0 v0] cs IH]; [reflexivity|].
  change (map (replace_named c w) ((c0, v0) :: cs))
    with (replace_named c w (c0, v0) :: map (replace_named c w) cs).
  unfold replace_named at 1. simpl.
  destruct (String.eqb_spec c0 c) as [->|Hne0]; simpl.
  - destruct (String.eqb_spec c c'); [congruence|]. exact IH.
  - rewrite IH. reflexivity.
Qed.

Lemma getitem_set_other f c c' v w :
  df_getitem f c = Some v -> c <> c' -> df_getitem (frame_set f c w) c' = df_getitem f c'.
Proof.
  intros H Hne. unfold frame_set. rewrite (set_col_getitem _ _ _ w H).
  unfold df_getitem. simpl. rewrite filter_replace_other by exact Hne. reflexivity.
Qed.

Lemma getitem_in f c v w :
  df_getitem f c = Some v -> In (c, w) (cols f) -> w = v.
Proof.
  unfold df_getitem. intros H Hin.
  assert (Hf : In (c, w) (filter (fun p => String.eqb (fst p) c) (cols f)))
    by (apply filter_In; split; [exact Hin | apply String.eqb_refl]).
  destruct (filter (fun p => String.eqb (fst p) c) (cols f)) as [|[x v0] [|]];
    try discriminate. injection H as <-. destruct Hf as [E|[]]. congruence.
Qed.

Lemma upd_same σ l f : upd σ l f l = Some f.
Proof. unfold upd. rewrite Nat.eqb_refl. reflexivity. Qed.

Lemma upd_other σ l l' f : l' <> l -> upd σ l f l' = σ l'.
Proof. unfold upd. intros H. destruct (Nat.eqb_spec l' l); [contradiction|reflexivity]. Qed.

Lemma normalize_dates_ok parse σ l σ' r :
  Page.normalize_dates parse σ l = (σ', r) ->
  match r with
  | inr l' =>
      l' = l /\
      exists f, σ l = Some f /\ dates_convertible parse f /\
        σ' l = Some (coerce_dates parse f) /\
        forall l'', l'' <> l -> σ' l'' = σ l''
  | inl _ => forall f, σ l = Some f -> ~ dates_convertible parse f
  end.
Proof.
  unfold Page.normalize_dates, Page.normalize_loop, Page.DATE_COLUMNS, to_datetime_checked.
  destruct (σ l) as [f|] eqn:Hl.
  2: { intros H. injection H as <- <-. intros f' Hf'. discriminate Hf'. }
  assert (Hmiss : forall c, df_getitem f c = None -> In c Page.DATE_COLUMNS ->
            forall f', Some f = Some f' -> ~ dates_convertible parse f').
  { intros c Hc Hin f' Hf' Hall. injection Hf' as <-.
    destruct (Hall c Hin) as [v [Hv _]]. congruence. }
  assert (Hmix : forall c v, df_getitem f c = Some v -> mixed_offsets parse v = true ->
            In c Page.DATE_COLUMNS ->
            forall f', Some f = Some f' -> ~ dates_convertible parse f').
  { intros c v Hc Hm Hin f' Hf' Hall. injection Hf' as <-.
    destruct (Hall c Hin) as [w [Hw Hw']]. rewrite Hc in Hw. injection Hw as <-. congruence. }
  destruct (df_getitem f "application_date") as [ad|] eqn:Had.
  2: { intros H. injection H as <- <-. apply (Hmiss _ Had). left. reflexivity. }
  destruct (mixed_offsets parse ad) eqn:Mad.
  { intros H. injection H as <- <-. apply (Hmix _ _ Had Mad). left. reflexivity. }
  cbv beta iota.
  rewrite upd_same, (getitem_set_other _ _ "approval_date" _ _ Had ltac:(discriminate)).
  destruct (df_getitem f "approval_date") as [apd|] eqn:Hapd.
  2: { intros H. injection H as <- <-. apply (Hmiss _ Hapd). right. left. reflexivity. }
  destruct (mixed_offsets parse apd) eqn:Mapd.
  { intros H. injection H as <- <-. apply (Hmix _ _ Hapd Mapd). right. left. reflexivity. }
  cbv beta iota.
  assert (Hb : df_getitem (frame_set f "application_date" (to_datetime parse ad))
                 "approval_date" = Some apd)
    by (rewrite (getitem_set_other _ _ "approval_date" _ _ Had ltac:(discriminate)); exact Hapd).
  rewrite upd_same, (getitem_set_other _ _ "expiration_date" _ _ Hb ltac:(discriminate)),
    (getitem_set_other _ _ "expiration_date" _ _ Had ltac:(discriminate)).
  destruct (df_getitem f "expiration_date") as [ed|] eqn:Hed.
  2: { intros H. injection H as <- <-. apply (Hmiss _ Hed). right. right. left. reflexivity. }
  destruct (mixed_offsets parse ed) eqn:Med.
  { intros H. injection H as <- <-. apply (Hmix _ _ Hed Med). right. right. left. reflexivity. }
  cbv beta iota.
  assert (Hc : df_getitem (frame_set (frame_set f "application_date" (to_datetime parse ad))
                 "approval_date" (to_datetime parse apd)) "expiration_date" = Some ed).
  { rewrite (getitem_set_other _ _ "expiration_date" _ _ Hb ltac:(discriminate)).
    rewrite (getitem_set_other _ _ "expiration_date" _ _ Had ltac:(discriminate)). exact Hed. }
  intros H. injection H as <- <-. split; [reflexivity|]. exists f. split; [reflexivity|].
  split; [intros c [<-|[<-|[<-|[]]]]; eauto|].
  split.
  - rewrite upd_same. f_equal. unfold coerce_dates, frame_set. simpl. f_equal.
    rewrite (set_col_getitem _ _ _ _ Hc). simpl.
    rewrite (set_col_getitem _ _ _ _ Hb). simpl.
    rewrite (set_col_getitem _ _ _ _ Had).
    rewrite !map_map. apply map_ext_in. intros [c v] Hin.
    unfold replace_named, is_date_col. simpl.
    destruct (String.eqb_spec c "application_date") as [->|H1].
    { rewrite (getitem_in _ _ _ _ Had Hin). reflexivity. }
    simpl. destruct (String.eqb_spec c "approval_date") as [->|H2].
    { rewrite (getitem_in _ _ _ _ Hapd Hin). reflexivity. }
    simpl. destruct (String.eqb_spec c "expiration_date") as [->|H3].
    { rewrite (getitem_in _ _ _ _ Hed Hin). reflexivity. }
    reflexivity.
  - intros l'' Hne. rewrite !upd_other by exact Hne. reflexivity.
Qed.

Lemma coerce_dates_shape parse f :
  nrows (coerce_dates parse f) = nrows f /\
  columns (coerce_dates parse f) = columns f /\
  (wf f -> wf (coerce_dates parse f)) /\
  forall i, frame_row (coerce_dates parse f) i
            = map (fun p => if is_date_col (fst p) then (fst p, date_cell parse (snd p)) else p)
                  (frame_row f i).
Proof.
  split; [reflexivity|]. split.
  { unfold columns, coerce_dates. simpl. rewrite map_map. apply map_ext. intros [c v].
    simpl. destruct (is_date_col c); reflexivity. }
  split.
  { unfold wf, coerce_dates. simpl. intros Hwf. apply Forall_map.
    eapply Forall_impl; [|exact Hwf]. intros [c v]. simpl.
    destruct (is_date_col c); simpl; [unfold to_datetime; rewrite length_map|]; auto. }
  intros i. unfold frame_row, coerce_dates. simpl. rewrite !map_map. apply map_ext.
  intros [c v]. simpl. destruct (is_date_col c); simpl; [|reflexivity].
  f_equal. unfold to_datetime.
  exact (map_nth (date_cell parse) v VNA i).
Qed.

Lemma normalize_dates_result parse σ l f :
  σ l = Some f ->
  (dates_convertible parse f ->
     snd (Page.normalize_dates parse σ l) = inr l /\
     fst (Page.normalize_dates parse σ l) l = Some (coerce_dates parse f) /\
     forall l', l' <> l -> fst (Page.normalize_dates parse σ l) l' = σ l') /\
  (~ dates_convertible parse f ->
     exists e, snd (Page.normalize_dates parse σ l) = inl e).
Proof.
  intros Hl. destruct (Page.normalize_dates parse σ l) as [σ' [e|l']] eqn:E;
    pose proof (normalize_dates_ok _ _ _ _ _ E) as H; simpl.
  - split; [intros Hall; exfalso; exact (H f Hl Hall) | eauto].
  - destruct H as [-> [f' [Hf' [Hall [H1 H2]]]]]. rewrite Hl in Hf'. injection Hf' as <-.
    split; [auto|]. intros Hn. exfalso. exact (Hn Hall).
Qed.

(** ** C8 *)

Lemma convertible_present parse f :
  dates_convertible parse f ->
  forall c, In c Page.DATE_COLUMNS -> exists v, df_getitem f c = Some v.
Proof. intros H c Hc. destruct (H c Hc) as [v [Hv _]]. eauto. Qed.

Lemma mixed_not_convertible parse f c v :
  In c Page.DATE_COLUMNS -> df_getitem f c = Some v -> mixed_offsets parse v = true ->
  ~ dates_convertible parse f.
Proof.
  intros Hc Hv Hm H. destruct (H c Hc) as [w [Hw Hw']]. rewrite Hv in Hw.
  injection Hw as <-. congruence.
Qed.

(** C8 (amended).  [normalize_dates] converts application_date,
    approval_date and expiration_date with [pd.to_datetime(...,
    errors="coerce")]: datetimes and nulls are kept and a value the parser
    rejects becomes null.  It does so in place: when the three columns are
    present and none of them mixes UTC offsets, the caller's object
    afterwards holds the converted batch, the same object is returned, and
    no other object changes; a batch lacking one of the three columns raises
    instead, and so does one whose date column mixes UTC offsets (pandas 3
    raises ValueError there). *)
Theorem normalize_dates_in_place (parse : parser) (σ : store) (l : nat) (f : frame)
  (Hl : σ l = Some f) :
  (forall v, v <> VNA -> (forall t, v <> VTime t) -> parse v = None -> date_cell parse v = VNA) /\
  (forall t, date_cell parse (VTime t) = VTime t) /\ date_cell parse VNA = VNA /\
  (dates_convertible parse f ->
     snd (Page.normalize_dates parse σ l) = inr l /\
     fst (Page.normalize_dates parse σ l) l = Some (coerce_dates parse f) /\
     (forall l', l' <> l -> fst (Page.normalize_dates parse σ l) l' = σ l') /\
     forall c, get_col (cols (coerce_dates parse f)) c
               = if is_date_col c then to_datetime parse (get_col (cols f) c)
                 else get_col (cols f) c) /\
  (~ (forall c, In c Page.DATE_COLUMNS -> exists v, df_getitem f c = Some v) ->
     exists e, snd (Page.normalize_dates parse σ l) = inl e) /\
  (forall c v, In c Page.DATE_COLUMNS -> df_getitem f c = Some v ->
     mixed_offsets parse v = true ->
     exists e, snd (Page.normalize_dates parse σ l) = inl e).
Proof.
  destruct (normalize_dates_result parse σ l f Hl) as [Hok Hko].
  split.
  { intros v Hna Ht Hp. destruct v; simpl; try rewrite Hp; try reflexivity.
    exfalso. exact (Ht t eq_refl). }
  split; [reflexivity|]. split; [reflexivity|]. split; [|split].
  2: { intros Hn. apply Hko. intros Hc. exact (Hn (convertible_present _ _ Hc)). }
  2: { intros c v Hc Hv Hm. apply Hko. exact (mixed_not_convertible _ _ _ _ Hc Hv Hm). }
  intros Hall. destruct (Hok Hall) as [H1 [H2 H3]]. split; [exact H1|].
  split; [exact H2|]. split; [exact H3|].
  intros c. unfold coerce_dates. simpl. induction (cols f) as [|[c' v] cs IH]; simpl.
  - destruct (is_date_col c); reflexivity.
  - destruct (String.eqb_spec c c') as [->|Hne].
    + destruct (is_date_col c'); simpl; rewrite String.eqb_refl; reflexivity.
    + destruct (is_date_col c'); simpl; destruct (String.eqb_spec c c'); try congruence;
        exact IH.
Qed.

Lemma normalize_dates_in_place_witness :
  upd (fun _ => None) 0 (mkFrame 1 [("application_date", [VStr "2026-01-05"]);
                                    ("approval_date", [VNA]);
                                    ("expiration_date", [VStr "soon"])]) 0
  = Some (mkFrame 1 [("application_date", [VStr "2026-01-05"]);
                     ("approval_date", [VNA]);
                     ("expiration_date", [VStr "soon"])]) /\
  date_cell (fun _ => None) (VStr "soon") = VNA.
Proof.
  assert (Hl : upd (fun _ => None) 0 (mkFrame 1 [("application_date", [VStr "2026-01-05"]);
                                    ("approval_date", [VNA]);
                                    ("expiration_date", [VStr "soon"])]) 0
  = Some (mkFrame 1 [("application_date", [VStr "2026-01-05"]);
                     ("approval_date", [VNA]);
                     ("expiration_date", [VStr "soon"])])) by reflexivity.
  split; [exact Hl|].
  destruct (normalize_dates_in_place (fun _ => None) _ 0 _ Hl) as [Hc _].
  apply Hc; [discriminate | intros t; discriminate | reflexivity].
Defined.

(** C8 as stated fails: after [normalize_dates] the caller's object (handle
    0) no longer holds the batch it held before the call; the call returns
    that same handle.  And a batch whose application dates mix UTC offsets
    makes it raise rather than coerce. *)
Lemma normalize_dates_in_place_counterexample :
  let σ0 := upd (fun _ => None) 0 demo_batch in
  snd (Page.normalize_dates parse_demo σ0 0) = inr 0 /\
  fst (Page.normalize_dates parse_demo σ0 0) 0 <> σ0 0 /\
  fst (Page.normalize_dates parse_demo σ0 0) 0
  = Some (mkFrame 1 [("application_date", [VTime 1767571200]);
                     ("approval_date", [VNA]);
                     ("expiration_date", [VNA])]) /\
  snd (Page.normalize_dates parse_demo (upd (fun _ => None) 0 mixed_offset_batch) 0)
  = inl "ValueError: Mixed timezones detected. Pass utc=True in to_datetime or tz='UTC' to convert to a unified timezone.".
Proof.
  simpl. split; [reflexivity|]. split; [discriminate|]. split; [reflexivity|].
  vm_compute. reflexivity.
Qed.

(** ** C10 *)

(** C10.  The core transformations keep the records, their number and their
    order.  Both harmonizers return a batch with one record per input record,
    every column holding one cell per record, and record [i] of the output is
    computed from record [i] of the input alone (the input's column names and
    the all-or-nothing synthesis flag being common to all records).
    [normalize_dates], when it succeeds, leaves a batch with the same number
    of records whose record [i] is record [i] of the input with its three
    date cells coerced. *)
Theorem transformations_preserve_records :
  (forall df fs out, wf df -> App.harmonize_schema df fs = Some out ->
     nrows out = nrows df /\ wf out /\
     forall i, i < nrows df ->
       frame_row out i = app_row (columns df) (permit_ids_all_na df) fs i (frame_row df i)) /\
  (forall parse now df fs out, wf df -> Ingest.harmonize_schema parse now df fs = Some out ->
     nrows out = nrows df /\ wf out /\
     forall i, i < nrows df ->
       frame_row out i
       = ingest_row parse now (columns df) (permit_ids_all_na df) fs i (frame_row df i)) /\
  (forall parse σ l f σ' l', σ l = Some f -> wf f ->
     Page.normalize_dates parse σ l = (σ', inr l') ->
     exists f', σ' l' = Some f' /\ nrows f' = nrows f /\ wf f' /\
       forall i, frame_row f' i
                 = map (fun p => if is_date_col (fst p)
                                 then (fst p, date_cell parse (snd p)) else p)
                       (frame_row f i)).
Proof.
  split; [exact App_harmonize_rows|]. split; [exact Ingest_harmonize_rows|].
  intros parse σ l f σ' l' Hl Hwf E.
  destruct (normalize_dates_ok _ _ _ _ _ E) as [-> [f0 [Hf0 [_ [Hs _]]]]].
  rewrite Hl in Hf0. injection Hf0 as <-.
  destruct (coerce_dates_shape parse f) as [Hn [_ [Hw Hr]]].
  exists (coerce_dates parse f). split; [exact Hs|]. split; [exact Hn|].
  split; [exact (Hw Hwf) | exact Hr].
Qed.

Lemma transformations_preserve_records_witness :
  wf (mkFrame 2 [("API", [VStr "42-1"; VNA]); ("Operator_Name", [VNA; VStr "Acme"])]) /\
  App.harmonize_schema
    (mkFrame 2 [("API", [VStr "42-1"; VNA]); ("Operator_Name", [VNA; VStr "Acme"])]) "TX"
  = Some (mkFrame 2 (app_out_cols "TX" 2
            [[VStr "42-1"; VNA]; [VNA; VNA]; [VNA; VStr "Acme"]; [VNA; VNA]; [VNA; VNA];
             [VNA; VNA]; [VNA; VNA]; [VNA; VNA]; [VNA; VNA]; [VNA; VNA]])) /\
  frame_row (mkFrame 2 (app_out_cols "TX" 2
            [[VStr "42-1"; VNA]; [VNA; VNA]; [VNA; VStr "Acme"]; [VNA; VNA]; [VNA; VNA];
             [VNA; VNA]; [VNA; VNA]; [VNA; VNA]; [VNA; VNA]; [VNA; VNA]])) 1
  = app_row ["API"; "Operator_Name"] false "TX" 1 [("API", VNA); ("Operator_Name", VStr "Acme")].
Proof.
  assert (Hwf : wf (mkFrame 2 [("API", [VStr "42-1"; VNA]);
                              ("Operator_Name", [VNA; VStr "Acme"])]))
    by (repeat constructor).
  assert (Hh : App.harmonize_schema
    (mkFrame 2 [("API", [VStr "42-1"; VNA]); ("Operator_Name", [VNA; VStr "Acme"])]) "TX"
  = Some (mkFrame 2 (app_out_cols "TX" 2
            [[VStr "42-1"; VNA]; [VNA; VNA]; [VNA; VStr "Acme"]; [VNA; VNA]; [VNA; VNA];
             [VNA; VNA]; [VNA; VNA]; [VNA; VNA]; [VNA; VNA]; [VNA; VNA]])))
    by (vm_compute; reflexivity).
  split; [exact Hwf|]. split; [exact Hh|].
  destruct (proj1 transformations_preserve_records _ _ _ Hwf Hh) as [_ [_ Hr]].
  exact (Hr 1 ltac:(simpl; lia)).
Defined.

(** ** Validation and metrics: lemmas *)

Lemma existsb_eqb_in c l : existsb (String.eqb c) l = true <-> In c l.
Proof.
  rewrite existsb_exists. split.
  - intros [x [Hx E]]. apply String.eqb_eq in E. subst. exact Hx.
  - intros H. exists c. split; [exact H | apply String.eqb_refl].
Qed.

Lemma existsb_eqb_notin c l : ~ In c l -> existsb (String.eqb c) l = false.
Proof.
  intros H. destruct (existsb (String.eqb c) l) eqn:E; [|reflexivity].
  exfalso. apply H, existsb_eqb_in, E.
Qed.

Lemma validate_ok_iff f :
  fst (Page.validate_dataframe f) = true <-> forall c, In c REQUIRED_COLUMNS -> In c (columns f).
Proof.
  unfold Page.validate_dataframe. cbn [fst]. rewrite Nat.eqb_eq, length_zero_iff_nil. split.
  - intros H c Hc. destruct (existsb (String.eqb c) (columns f)) eqn:E.
    + apply existsb_eqb_in, E.
    + assert (Hin : In c (filter (fun c => negb (existsb (String.eqb c) (columns f)))
                            REQUIRED_COLUMNS)) by (apply filter_In; rewrite E; auto).
      rewrite H in Hin. destruct Hin.
  - intros H. rewrite (filter_ext_in _ (fun _ => false)); [apply filter_false|].
    intros c Hc. rewrite (proj2 (existsb_eqb_in c _) (H c Hc)). reflexivity.
Qed.

Lemma validate_columns_only f g :
  columns f = columns g -> Page.validate_dataframe f = Page.validate_dataframe g.
Proof. unfold Page.validate_dataframe. intros ->. reflexivity. Qed.

Lemma validate_missing_operator f :
  (forall c, In c REQUIRED_COLUMNS -> c <> "operator" -> In c (columns f)) ->
  ~ In "operator" (columns f) ->
  Page.validate_dataframe f = (false, ["operator"]).
Proof.
  intros H Hop. unfold Page.validate_dataframe, REQUIRED_COLUMNS.
  cbn [filter].
  repeat match goal with
         | |- context [existsb (String.eqb ?c) (columns f)] =>
             first [ rewrite (existsb_eqb_notin c _ Hop)
                   | rewrite (proj2 (existsb_eqb_in c _)
                                (H c ltac:(simpl; tauto) ltac:(discriminate))) ]
         end.
  reflexivity.
Qed.

Lemma validate_all_present f :
  (forall c, In c REQUIRED_COLUMNS -> In c (columns f)) ->
  Page.validate_dataframe f = (true, []).
Proof.
  intros H. unfold Page.validate_dataframe.
  rewrite (filter_ext_in _ (fun _ => false)); [rewrite filter_false; reflexivity|].
  intros c Hc. rewrite (proj2 (existsb_eqb_in c _) (H c Hc)). reflexivity.
Qed.

Lemma run_metrics_not_valid parse now σ l f :
  σ l = Some f -> fst (Page.validate_dataframe f) = false ->
  (dates_convertible parse f ->
     Page.run_metrics parse now σ l = Page.Halted (snd (Page.validate_dataframe f))) /\
  (~ dates_convertible parse f ->
     exists e, Page.run_metrics parse now σ l = Page.Crashed e).
Proof.
  intros Hl Hv. destruct (normalize_dates_result parse σ l f Hl) as [Hok Hko].
  unfold Page.run_metrics. split.
  - intros Hall. destruct (Hok Hall) as [H1 [H2 _]].
    destruct (Page.normalize_dates parse σ l) as [σ1 r] eqn:E. simpl in H1, H2. subst r.
    rewrite H2.
    rewrite (validate_columns_only _ f (proj1 (proj2 (coerce_dates_shape parse f)))).
    destruct (Page.validate_dataframe f) as [b m]. simpl in Hv. subst b. reflexivity.
  - intros Hn. destruct (Hko Hn) as [e He].
    destruct (Page.normalize_dates parse σ l) as [σ1 r] eqn:E. simpl in He. subst r. eauto.
Qed.

Lemma classic_dates parse f : dates_convertible parse f \/ ~ dates_convertible parse f.
Proof.
  unfold dates_convertible, Page.DATE_COLUMNS.
  destruct (df_getitem f "application_date") as [a|] eqn:Ha;
    [|right; intros H; destruct (H "application_date") as [v [Hv _]];
      first [congruence | simpl; tauto]].
  destruct (mixed_offsets parse a) eqn:Ma;
    [right; intros H; destruct (H "application_date") as [v [Hv Hm]];
      [simpl; tauto | congruence]|].
  destruct (df_getitem f "approval_date") as [b|] eqn:Hb;
    [|right; intros H; destruct (H "approval_date") as [v [Hv _]];
      first [congruence | simpl; tauto]].
  destruct (mixed_offsets parse b) eqn:Mb;
    [right; intros H; destruct (H "approval_date") as [v [Hv Hm]];
      [simpl; tauto | congruence]|].
  destruct (df_getitem f "expiration_date") as [e|] eqn:He;
    [|right; intros H; destruct (H "expiration_date") as [v [Hv _]];
      first [congruence | simpl; tauto]].
  destruct (mixed_offsets parse e) eqn:Me;
    [right; intros H; destruct (H "expiration_date") as [v [Hv Hm]];
      [simpl; tauto | congruence]|].
  left. intros c [<-|[<-|[<-|[]]]]; eauto.
Qed.

(** ** C6 *)

(** C6.  [validate_dataframe] looks only at the column names: two batches
    with the same names get the same verdict, whatever their cells hold.  It
    succeeds exactly when every canonical name is present; a batch lacking
    only [operator] gets [(False, ["operator"])] and one with all ten names
    [(True, [])].  When validation fails the page never reaches the metrics:
    it stops with the missing-column message (or, for a batch without one of
    the date columns or with one mixing UTC offsets, already with the
    exception of [normalize_dates]). *)
Theorem validation_gate :
  (forall f g, columns f = columns g -> Page.validate_dataframe f = Page.validate_dataframe g) /\
  (forall f, fst (Page.validate_dataframe f) = true
             <-> forall c, In c REQUIRED_COLUMNS -> In c (columns f)) /\
  (forall f, (forall c, In c REQUIRED_COLUMNS -> c <> "operator" -> In c (columns f)) ->
     ~ In "operator" (columns f) -> Page.validate_dataframe f = (false, ["operator"])) /\
  (forall f, (forall c, In c REQUIRED_COLUMNS -> In c (columns f)) ->
     Page.validate_dataframe f = (true, [])) /\
  (forall parse now σ l f, σ l = Some f -> fst (Page.validate_dataframe f) = false ->
     (forall σ' l', Page.run_metrics parse now σ l <> Page.Rendered σ' l') /\
     (dates_convertible parse f ->
        Page.run_metrics parse now σ l = Page.Halted (snd (Page.validate_dataframe f)))).
Proof.
  split; [exact validate_columns_only|]. split; [exact validate_ok_iff|].
  split; [exact validate_missing_operator|]. split; [exact validate_all_present|].
  intros parse now σ l f Hl Hv.
  destruct (run_metrics_not_valid parse now σ l f Hl Hv) as [Hh Hc]. split; [|exact Hh].
  intros σ' l' E.
  destruct (classic_dates parse f) as [Hall|Hn].
  - rewrite (Hh Hall) in E. discriminate E.
  - destruct (Hc Hn) as [e He]. rewrite He in E. discriminate E.
Qed.

Lemma validation_gate_witness :
  Page.validate_dataframe no_operator_batch = (false, ["operator"]) /\
  Page.run_metrics parse_demo 1767600000%Z (upd (fun _ => None) 0 no_operator_batch) 0
  = Page.Halted ["operator"].
Proof.
  destruct validation_gate as [_ [_ [Hop [_ Hrun]]]].
  assert (Hv : Page.validate_dataframe no_operator_batch = (false, ["operator"])).
  { apply Hop; [intros c Hc Hne; simpl in Hc |- *; intuition congruence
               | simpl; intuition discriminate]. }
  split; [exact Hv|].
  destruct (Hrun parse_demo 1767600000%Z (upd (fun _ => None) 0 no_operator_batch) 0
              no_operator_batch (upd_same _ _ _) ltac:(rewrite Hv; reflexivity)) as [_ Hh].
  rewrite Hh; [rewrite Hv; reflexivity|].
  intros c [<-|[<-|[<-|[]]]]; eexists; split; reflexivity.
Defined.

(** ** Metrics: lemmas *)

Lemma get_col_set_same cs c v : get_col (set_col cs c v) c = v.
Proof.
  induction cs as [|[c' v'] cs IH]; simpl; [rewrite String.eqb_refl; reflexivity|].
  destruct (String.eqb_spec c c') as [->|Hne]; simpl.
  - rewrite String.eqb_refl. reflexivity.
  - destruct (String.eqb_spec c c'); [contradiction|]. exact IH.
Qed.

Lemma get_col_set_other cs c c' v :
  c <> c' -> get_col (set_col cs c v) c' = get_col cs c'.
Proof.
  intros Hne. induction cs as [|[c0 v0] cs IH]; simpl.
  - destruct (String.eqb_spec c' c); [congruence|reflexivity].
  - destruct (String.eqb_spec c c0) as [->|Hne0]; simpl.
    + destruct (String.eqb_spec c' c0); [congruence|reflexivity].
    + destruct (String.eqb c' c0); [reflexivity|exact IH].
Qed.

Lemma getitem_some_in f c v : df_getitem f c = Some v -> In (c, v) (cols f).
Proof.
  unfold df_getitem.
  destruct (filter (fun p => String.eqb (fst p) c) (cols f)) as [|[x v0] [|]] eqn:E;
    try discriminate. intros H. injection H as ->.
  assert (Hin : In (x, v) (filter (fun p => String.eqb (fst p) c) (cols f)))
    by (rewrite E; left; reflexivity).
  apply filter_In in Hin as [Hin Hx]. simpl in Hx. apply String.eqb_eq in Hx. subst.
  exact Hin.
Qed.

Lemma getitem_get_col f c v : df_getitem f c = Some v -> get_col (cols f) c = v.
Proof.
  unfold df_getitem. destruct f as [n cs]. simpl.
  induction cs as [|[c' v'] cs IH]; simpl; [discriminate|].
  destruct (String.eqb_spec c' c) as [->|Hne]; simpl.
  - rewrite String.eqb_refl.
    destruct (filter (fun p => String.eqb (fst p) c) cs); [|discriminate].
    intros H. injection H as <-. reflexivity.
  - destruct (String.eqb_spec c c'); [congruence|]. exact IH.
Qed.

Lemma date_cell_kind parse x : date_cell parse x = VNA \/ exists t, date_cell parse x = VTime t.
Proof. destruct x; simpl; try destruct (parse _) as [[? ?]|]; eauto. Qed.

Lemma coerce_getitem_date parse f c v :
  df_getitem (coerce_dates parse f) c = Some v -> is_date_col c = true ->
  Forall (fun x => x = VNA \/ exists t, x = VTime t) v.
Proof.
  intros H Hc. apply getitem_some_in in H. unfold coerce_dates in H. simpl in H.
  apply in_map_iff in H as [[c0 v0] [E _]]. simpl in E.
  destruct (is_date_col c0) eqn:Hc0.
  - injection E as <- <-. unfold to_datetime. apply Forall_forall. intros x Hx.
    apply in_map_iff in Hx as [y [<- _]]. apply date_cell_kind.
  - injection E as <- <-. congruence.
Qed.

Lemma days_whole (today t k : Z) :
  (today + k * 86400 <= t < today + (k + 1) * 86400)%Z ->
  Page.days_to_expiry today (VTime t) = VNum k.
Proof.
  intros H. simpl. f_equal. symmetry.
  apply Z.div_unique with (t - today - k * 86400)%Z; lia.
Qed.

Lemma run_metrics_rendered parse now σ l σ' l' :
  Page.run_metrics parse now σ l = Page.Rendered σ' l' ->
  exists out, σ' l' = Some out /\
    get_col (cols out) "days_to_expiry"
    = map (Page.days_to_expiry (Page.today_of now)) (get_col (cols out) "expiration_date") /\
    Forall (fun x => x = VNA \/ exists t, x = VTime t) (get_col (cols out) "expiration_date").
Proof.
  unfold Page.run_metrics. intros H.
  destruct (Page.normalize_dates parse σ l) as [σ1 [e|l1]] eqn:E1; [discriminate|].
  destruct (σ1 l1) as [data|] eqn:Hd; [|discriminate].
  destruct (Page.validate_dataframe data) as [[|] mc]; simpl in H; [|discriminate].
  destruct (Page.normalize_dates parse σ1 l1) as [σ2 [e|l2]] eqn:E2; [discriminate|].
  destruct (σ2 l2) as [data2|] eqn:Hd2; [|discriminate].
  destruct (df_getitem data2 "expiration_date") as [ex|] eqn:Hex; [|discriminate].
  injection H as <- <-.
  destruct (normalize_dates_ok _ _ _ _ _ E2) as [-> [f [Hf [_ [Hs _]]]]].
  rewrite Hd in Hf. injection Hf as <-. rewrite Hs in Hd2. injection Hd2 as <-.
  eexists. split; [apply upd_same|]. unfold frame_set. cbn [cols].
  rewrite get_col_set_same, get_col_set_other by discriminate.
  rewrite (getitem_get_col _ _ _ Hex). split; [reflexivity|].
  exact (coerce_getitem_date _ _ _ _ Hex eq_refl).
Qed.

(** ** C5 *)

(** C5.  When the page renders its metrics, every record's [days_to_expiry]
    is computed from its [expiration_date] and the midnight of the day the
    page runs ([now] is the clock at that run): a timestamp in the [k]-th
    whole day from today gives [k] (so 15 days ago gives -15 and 60 days
    ahead gives 60, and a date [d] days after the epoch gives [d] minus the
    current day number), and a null expiration date gives null.  After
    normalization the expiration column holds only timestamps and nulls. *)
Theorem days_to_expiry_whole_days :
  (forall parse now σ l σ' l', Page.run_metrics parse now σ l = Page.Rendered σ' l' ->
     exists out, σ' l' = Some out /\
       get_col (cols out) "days_to_expiry"
       = map (Page.days_to_expiry (Page.today_of now)) (get_col (cols out) "expiration_date") /\
       Forall (fun x => x = VNA \/ exists t, x = VTime t)
              (get_col (cols out) "expiration_date")) /\
  (forall now t k, (Page.today_of now + k * 86400 <= t < Page.today_of now + (k + 1) * 86400)%Z ->
     Page.days_to_expiry (Page.today_of now) (VTime t) = VNum k) /\
  (forall now d, Page.days_to_expiry (Page.today_of now) (VTime (d * 86400))
                 = VNum (d - now / 86400)) /\
  (forall now, Page.days_to_expiry (Page.today_of now) (VTime (Page.today_of now - 15 * 86400))
               = VNum (-15)) /\
  (forall now, Page.days_to_expiry (Page.today_of now) (VTime (Page.today_of now + 60 * 86400))
               = VNum 60) /\
  (forall today, Page.days_to_expiry today VNA = VNA).
Proof.
  split; [exact run_metrics_rendered|].
  split; [intros now; apply days_whole|].
  split; [intros now d; apply days_whole; unfold Page.today_of; lia|].
  split; [intros now; apply days_whole; lia|].
  split; [intros now; apply days_whole; lia|].
  reflexivity.
Qed.

Lemma days_to_expiry_whole_days_witness :
  match Page.run_metrics parse_demo 1767614400%Z (upd (fun _ => None) 0 full_batch) 0 with
  | Page.Rendered σ' l' =>
      exists out, σ' l' = Some out /\ get_col (cols out) "days_to_expiry" = [VNum 55; VNA]
  | _ => False
  end.
Proof.
  case_eq (Page.run_metrics parse_demo 1767614400%Z (upd (fun _ => None) 0 full_batch) 0);
    [intros m E | intros m E | intros σ' l' E]; try (vm_compute in E; discriminate E).
  destruct (proj1 days_to_expiry_whole_days _ _ _ _ _ _ E) as [out [Ho [Hd _]]].
  exists out. split; [exact Ho|]. rewrite Hd.
  vm_compute in E. injection E as <- <-. vm_compute in Ho. injection Ho as <-.
  vm_compute. reflexivity.
Defined.

(** ** Fetcher and coordinator: lemmas *)

Lemma fetch_body_world L url st w w' r :
  fetch_body L url st w = (w', r) ->
  cache w' = cache w /\ clock w' = clock w /\
  (calls w' = S (calls w) \/ calls w' = S (S (calls w))) /\
  (forall x, http_get L (calls w) url 60 = inr x -> calls w' = S (S (calls w))) /\
  (forall f, r = inr f -> exists raw, App.harmonize_schema raw st = Some f).
Proof.
  unfold fetch_body, bind, requests_get, raise_for_status, lift.
  cbn -[App.harmonize_schema _response_to_dataframe py_lower str_of_nat Nat.leb Nat.ltb].
  destruct (http_get L (calls w) url 60) as [e1|r1] eqn:E1.
  { intros H. injection H as <- <-. cbn. split; [reflexivity|]. split; [reflexivity|].
    split; [left; reflexivity|]. split; [congruence|discriminate]. }
  cbn -[App.harmonize_schema _response_to_dataframe py_lower str_of_nat Nat.leb Nat.ltb].
  destruct (http_get L (S (calls w)) url 30) as [e2|r2] eqn:E2;
  cbn -[App.harmonize_schema _response_to_dataframe py_lower str_of_nat Nat.leb Nat.ltb].
  { intros H. injection H as <- <-. cbn. repeat split; auto; discriminate. }
  destruct (Nat.leb 400 (status_code r2) && Nat.ltb (status_code r2) 500);
  cbn -[App.harmonize_schema _response_to_dataframe py_lower str_of_nat Nat.leb Nat.ltb].
  { intros H. injection H as <- <-. cbn. repeat split; auto; discriminate. }
  destruct (Nat.leb 500 (status_code r2) && Nat.ltb (status_code r2) 600);
  cbn -[App.harmonize_schema _response_to_dataframe py_lower str_of_nat Nat.leb Nat.ltb].
  { intros H. injection H as <- <-. cbn. repeat split; auto; discriminate. }
  destruct (_response_to_dataframe L (content r2) (py_lower (content_type r2))) as [e3|raw];
  cbn -[App.harmonize_schema _response_to_dataframe py_lower str_of_nat Nat.leb Nat.ltb].
  { intros H. injection H as <- <-. cbn. repeat split; auto; discriminate. }
  intros H. injection H as <- <-. cbn. repeat split; auto.
  intros f Hf. exists raw. unfold or_raise in Hf.
  destruct (App.harmonize_schema raw st); congruence.
Qed.

Lemma cache_get_in k c e : cache_get k c = Some e -> exists k', In (k', e) c.
Proof.
  induction c as [|[k' e'] c IH]; simpl; [discriminate|].
  destruct (key_eqb k k'); [intros H; injection H as <-; eauto|].
  intros H. destruct (IH H) as [k'' Hin]. eauto.
Qed.

Lemma cache_put_ok k e c (P : ((string * string) * (Z * frame)) -> Prop) :
  Forall P c -> P (k, e) -> Forall P (cache_put k e c).
Proof.
  intros Hc He. induction Hc as [|[k' e'] c Hx Hc IH]; simpl; [auto|].
  destruct (key_eqb k k'); constructor; auto.
Qed.

Lemma key_eqb_refl k : key_eqb k k = true.
Proof. unfold key_eqb. rewrite !String.eqb_refl. reflexivity. Qed.

Lemma cache_get_put k e c : cache_get k (cache_put k e c) = Some e.
Proof.
  induction c as [|[k' e'] c IH]; simpl; [rewrite key_eqb_refl; reflexivity|].
  destruct (key_eqb k k') eqn:E; simpl; [rewrite key_eqb_refl; reflexivity|].
  rewrite E. exact IH.
Qed.

Lemma fetch_remote_permits_ok L url st w w' r :
  cache_ok w -> fetch_remote_permits L url st w = (w', r) ->
  cache_ok w' /\ (forall f, r = inr f -> columns f = REQUIRED_COLUMNS).
Proof.
  intros Hw. unfold fetch_remote_permits.
  destruct (cache_lookup (url, st) w) as [f|] eqn:Hl.
  { intros H. injection H as <- <-. split; [exact Hw|]. intros f' Hf. injection Hf as <-.
    unfold cache_lookup in Hl. destruct (cache_get (url, st) (cache w)) as [[ts g]|] eqn:Hg;
      [|discriminate]. destruct (Z.ltb (clock w - ts) TTL); [|discriminate].
    injection Hl as <-. destruct (cache_get_in _ _ _ Hg) as [k' Hin].
    exact (proj1 (Forall_forall _ _) Hw _ Hin). }
  destruct (fetch_body L url st w) as [w1 r1] eqn:Eb.
  destruct (fetch_body_world _ _ _ _ _ _ Eb) as [Hc [_ [_ [_ Hr]]]].
  destruct r1 as [e|f].
  - intros H. injection H as <- <-. split; [unfold cache_ok; rewrite Hc; exact Hw|discriminate].
  - intros H. injection H as <- <-. destruct (Hr f eq_refl) as [raw Hraw].
    pose proof (App_harmonize_columns _ _ _ Hraw) as Hf.
    split; [|intros f' Hf'; injection Hf' as <-; exact Hf].
    unfold cache_ok. simpl. apply cache_put_ok; [rewrite Hc; exact Hw | exact Hf].
Qed.

Lemma fetch_remote_calls L url st w :
  calls (fst (fetch_remote L url st w)) = S (calls w).
Proof.
  unfold fetch_remote, bind, requests_get, raise_for_status, lift.
  cbn -[Ingest.harmonize_schema_exc _response_to_dataframe py_lower str_of_nat Nat.leb Nat.ltb].
  destruct (http_get L (calls w) url 60) as [e1|r1]; [reflexivity|].
  cbn -[Ingest.harmonize_schema_exc _response_to_dataframe py_lower str_of_nat Nat.leb Nat.ltb].
  destruct (Nat.leb 400 (status_code r1) && Nat.ltb (status_code r1) 500); [reflexivity|].
  cbn -[Ingest.harmonize_schema_exc _response_to_dataframe py_lower str_of_nat Nat.leb Nat.ltb].
  destruct (Nat.leb 500 (status_code r1) && Nat.ltb (status_code r1) 600); [reflexivity|].
  cbn -[Ingest.harmonize_schema_exc _response_to_dataframe py_lower str_of_nat Nat.leb Nat.ltb].
  destruct (_response_to_dataframe L (content r1) (py_lower (content_type r1))); reflexivity.
Qed.

Lemma fetch_miss_calls L url st w x :
  cache_lookup (url, st) w = None -> http_get L (calls w) url 60 = inr x ->
  calls (fst (fetch_remote_permits L url st w)) = S (S (calls w)).
Proof.
  intros Hl Hx. unfold fetch_remote_permits. rewrite Hl.
  destruct (fetch_body L url st w) as [w1 r1] eqn:Eb.
  destruct (fetch_body_world _ _ _ _ _ _ Eb) as [_ [_ [_ [H2 _]]]].
  destruct r1; simpl; exact (H2 x Hx).
Qed.

Lemma fetch_then_hit L url st w w1 f d :
  cache_lookup (url, st) w = None -> fetch_remote_permits L url st w = (w1, inr f) ->
  (0 <= d < TTL)%Z ->
  fetch_remote_permits L url st (tick d w1) = (tick d w1, inr f).
Proof.
  intros Hl E Hd. unfold fetch_remote_permits in E. rewrite Hl in E.
  destruct (fetch_body L url st w) as [w2 [e|g]] eqn:Eb; [discriminate|].
  injection E as <- <-.
  unfold fetch_remote_permits, cache_lookup, tick. cbn [cache clock calls].
  rewrite cache_get_put.
  replace (clock w2 + d - clock w2)%Z with d by lia.
  destruct (Z.ltb_spec d TTL); [reflexivity|lia].
Qed.

Lemma fetch_miss_first_fails L url st w e :
  cache_lookup (url, st) w = None -> http_get L (calls w) url 60 = inl e ->
  fetch_remote_permits L url st w = (mkWorld (cache w) (S (calls w)) (clock w), inl e).
Proof.
  intros Hl He. unfold fetch_remote_permits. rewrite Hl.
  unfold fetch_body, bind, requests_get. cbn [calls]. rewrite He. reflexivity.
Qed.

Lemma fold_union_incl (acc l : list string) :
  (forall c, In c l -> In c acc) ->
  fold_left (fun acc c => if existsb (String.eqb c) acc then acc else acc ++ [c]) l acc = acc.
Proof.
  revert acc. induction l as [|c l IH]; intros acc H; simpl; [reflexivity|].
  rewrite (proj2 (existsb_eqb_in c acc) (H c (or_introl eq_refl))).
  apply IH. intros c' Hc'. apply H. right. exact Hc'.
Qed.

Lemma pd_concat_canonical fs :
  fs <> [] -> Forall (fun f => columns f = REQUIRED_COLUMNS) fs -> pd_concat fs = stack_rows fs.
Proof.
  intros Hne Hfs. unfold pd_concat, stack_rows. f_equal.
  assert (Hu : col_union (flat_map columns fs) = REQUIRED_COLUMNS).
  { destruct fs as [|f fs']; [contradiction|]. inversion Hfs as [|f0 fs0 Hf Hfs']. subst.
    unfold col_union. simpl. rewrite Hf, fold_left_app.
    assert (H0 : col_union REQUIRED_COLUMNS = REQUIRED_COLUMNS) by reflexivity.
    unfold col_union in H0. rewrite H0. apply fold_union_incl.
    intros c Hc. apply in_flat_map in Hc as [f' [Hf' Hc]].
    rewrite (proj1 (Forall_forall _ _) Hfs' f' Hf') in Hc. exact Hc. }
  rewrite Hu. apply map_ext_in. intros c Hc. f_equal. f_equal. apply map_ext_in.
  intros f Hf. rewrite (proj1 (Forall_forall _ _) Hfs f Hf).
  rewrite (proj2 (existsb_eqb_in c _) Hc). reflexivity.
Qed.

Lemma load_sources_spec L srcs :
  forall fr is w, cache_ok w ->
  exists w' fs is', processed L srcs w w' fs is' /\
    load_sources L srcs fr is w = (w', inr (fr ++ fs, is ++ is')) /\
    cache_ok w' /\ Forall (fun f => columns f = REQUIRED_COLUMNS) fs.
Proof.
  induction srcs as [|[state url] rest IH]; intros fr is w Hw.
  - exists w, [], []. split; [constructor|]. rewrite !app_nil_r. auto.
  - cbn [load_sources]. destruct (String.eqb_spec url "") as [->|Hne].
    + destruct (IH fr (is ++ [(state ++ " source URL is empty.")%string]) w Hw)
        as [w' [fs [is' [Hp [E [Hw' Hf]]]]]].
      exists w', fs, ((state ++ " source URL is empty.")%string :: is').
      split; [constructor; exact Hp|]. rewrite E, <- app_assoc. auto.
    + unfold bind, attempt.
      destruct (fetch_remote_permits L url state w) as [w1 [e|f]] eqn:Ef;
        destruct (fetch_remote_permits_ok _ _ _ _ _ _ Hw Ef) as [Hw1 Hcol]; cbv beta iota.
      * destruct (IH fr (is ++ [(state ++ " fetch failed: " ++ e)%string]) w1 Hw1)
          as [w' [fs [is' [Hp [E [Hw' Hf]]]]]].
        exists w', fs, ((state ++ " fetch failed: " ++ e)%string :: is').
        split; [econstructor; eauto|]. rewrite E, <- app_assoc. auto.
      * destruct (IH (fr ++ [f]) is w1 Hw1) as [w' [fs [is' [Hp [E [Hw' Hf]]]]]].
        exists w', (f :: fs), is'.
        split; [econstructor; eauto|]. rewrite E, <- app_assoc. simpl.
        split; [reflexivity|]. split; [exact Hw'|]. constructor; [apply Hcol; reflexivity|exact Hf].
Qed.

Lemma fetch_ok_calls L url st w w1 f :
  cache_lookup (url, st) w = None -> fetch_remote_permits L url st w = (w1, inr f) ->
  calls w1 = calls w + 2.
Proof.
  intros Hl E. destruct (http_get L (calls w) url 60) as [e|x] eqn:Hx.
  - rewrite (fetch_miss_first_fails _ _ _ _ _ Hl Hx) in E. discriminate E.
  - pose proof (fetch_miss_calls _ _ _ _ _ Hl Hx) as H. rewrite E in H. simpl in H. lia.
Qed.

(** ** C4 *)

(** C4 (code bug).  The cache itself behaves as described: a live entry is
    returned with no network call, a fetched batch is stored and served
    again while its age is below the TTL, and after [clear] the next fetch goes to the
    network.  But the body of [fetch_remote_permits] calls [requests.get]
    twice (lines 146-147, the first response is discarded), so an uncached
    fetch whose first request goes through issues two network calls, and two
    fetches of the same key within the TTL issue two calls in total, not
    one.  The batch job's [fetch_remote] issues one. *)
Theorem fetch_remote_permits_network_calls :
  (forall L url st w f, cache_lookup (url, st) w = Some f ->
     fetch_remote_permits L url st w = (w, inr f)) /\
  (forall L url st w x, cache_lookup (url, st) w = None -> http_get L (calls w) url 60 = inr x ->
     calls (fst (fetch_remote_permits L url st w)) = calls w + 2) /\
  (forall L url st w w1 f d, cache_lookup (url, st) w = None ->
     fetch_remote_permits L url st w = (w1, inr f) -> (0 <= d < TTL)%Z ->
     calls w1 = calls w + 2 /\ fetch_remote_permits L url st (tick d w1) = (tick d w1, inr f)) /\
  (forall L url st w x, http_get L (calls w) url 60 = inr x ->
     calls (fst (fetch_remote_permits L url st (clear_cache w))) = calls w + 2) /\
  (forall L url st w, calls (fst (fetch_remote L url st w)) = calls w + 1).
Proof.
  split.
  { intros L url st w f Hl. unfold fetch_remote_permits. rewrite Hl. reflexivity. }
  split.
  { intros L url st w x Hl Hx. rewrite (fetch_miss_calls _ _ _ _ _ Hl Hx). lia. }
  split.
  { intros L url st w w1 f d Hl E Hd. split; [exact (fetch_ok_calls _ _ _ _ _ _ Hl E)|].
    exact (fetch_then_hit _ _ _ _ _ _ _ Hl E Hd). }
  split.
  { intros L url st w x Hx. rewrite (fetch_miss_calls L url st (clear_cache w) x);
      [simpl; lia | reflexivity | exact Hx]. }
  intros L url st w. rewrite fetch_remote_calls. lia.
Qed.

Lemma fetch_remote_permits_network_calls_witness :
  calls (fst (fetch_remote_permits demo_libs demo_url "TX" (mkWorld [] 0 0))) = 2 /\
  calls (fst (fetch_remote_permits demo_libs demo_url "TX"
                (tick 600 (fst (fetch_remote_permits demo_libs demo_url "TX" (mkWorld [] 0 0))))))
  = 2.
Proof.
  destruct fetch_remote_permits_network_calls as [_ [Hmiss [Hhit _]]].
  destruct (fetch_remote_permits demo_libs demo_url "TX" (mkWorld [] 0 0)) as [w1 r] eqn:E.
  assert (Hr : r = inr (mkFrame 1 (app_out_cols "TX" 1
            [[VStr "42-1"]; [VNA]; [VStr "Acme"]; [VNA]; [VNA];
             [VNA]; [VNA]; [VNA]; [VNA]; [VNA]])))
    by (vm_compute in E; injection E as _ <-; reflexivity).
  subst r.
  destruct (Hhit demo_libs demo_url "TX" (mkWorld [] 0 0) w1 _ 600%Z eq_refl E
              ltac:(unfold TTL; lia)) as [Hc Hs].
  simpl fst. rewrite Hs. unfold tick. cbn [fst calls]. rewrite Hc. split; reflexivity.
Defined.

(** ** C3 *)

(** C3.  [load_live_data] never raises.  The sources are processed in
    order, each in the session the previous one left ([processed]): an empty
    URL adds the one issue ["<state> source URL is empty."] and is skipped, a
    fetch that raises adds the one issue ["<state> fetch failed: <exc>"] and
    processing goes on with the next source, a fetched batch is kept.  With
    no batch kept the result is the empty canonical batch (ten columns, no
    record); otherwise it is the records of the kept batches one after the
    other, in source order; the issue list comes with it.  The loop behaves
    the same for any list of sources. *)
Theorem load_live_data_partial_failure :
  (forall L srcs w, cache_ok w ->
     exists w' fs is, load_sources L srcs [] [] w = (w', inr (fs, is)) /\
       processed L srcs w w' fs is /\ Forall (fun f => columns f = REQUIRED_COLUMNS) fs) /\
  (forall L tx la w, cache_ok w ->
     exists w' fs is, processed L [("TX", tx); ("LA", la)] w w' fs is /\
       load_live_data L tx la w
       = (w', inr (match fs with [] => empty_required | _ => stack_rows fs end, is))) /\
  columns empty_required = REQUIRED_COLUMNS /\ nrows empty_required = 0 /\
  (forall n t, cache_ok (mkWorld [] n t)).
Proof.
  split.
  { intros L srcs w Hw. destruct (load_sources_spec L srcs [] [] w Hw)
      as [w' [fs [is [Hp [E [_ Hf]]]]]]. exists w', fs, is. auto. }
  split.
  { intros L tx la w Hw.
    destruct (load_sources_spec L [("TX", tx); ("LA", la)] [] [] w Hw)
      as [w' [fs [is [Hp [E [_ Hf]]]]]].
    exists w', fs, is. split; [exact Hp|].
    unfold load_live_data, bind. rewrite E. cbn [app].
    destruct fs as [|f fs']; [reflexivity|].
    unfold ret. rewrite pd_concat_canonical by (discriminate || exact Hf). reflexivity. }
  split; [reflexivity|]. split; [reflexivity|]. intros n t. constructor.
Qed.

Lemma load_live_data_partial_failure_witness :
  load_live_data demo_libs "" demo_url (mkWorld [] 0 0)
  = (fst (load_live_data demo_libs "" demo_url (mkWorld [] 0 0)),
     inr (stack_rows [mkFrame 1 (app_out_cols "LA" 1
            [[VStr "42-1"]; [VNA]; [VStr "Acme"]; [VNA]; [VNA];
             [VNA]; [VNA]; [VNA]; [VNA]; [VNA]])], ["TX source URL is empty."])).
Proof.
  destruct (proj1 (proj2 load_live_data_partial_failure) demo_libs "" demo_url
              (mkWorld [] 0 0) (Forall_nil _)) as [w' [fs [is [Hp E]]]].
  rewrite E. simpl fst.
  repeat match goal with
         | H : processed _ _ _ _ _ _ |- _ => inversion H; subst; clear H
         end; try congruence.
  all: match goal with H : fetch_remote_permits _ _ _ _ = _ |- _ =>
         vm_compute in H; injection H as _ H end; try discriminate.
  subst. vm_compute. reflexivity.
Defined.

(** ** Decoder: lemmas *)









(** ** C7 *)




(** * Further properties of the embedded code *)

Lemma str_length_app (s t : string) : String.length (s ++ t) = String.length s + String.length t.
Proof. induction s as [|a s IH]; simpl; [reflexivity|rewrite IH; reflexivity]. Qed.

Lemma py_int_acc_app acc s t : py_int_acc acc (s ++ t) = py_int_acc (py_int_acc acc s) t.
Proof. revert acc. induction s as [|a s IH]; intros acc; simpl; [reflexivity|apply IH]. Qed.

Lemma py_int_acc_shift s : forall k, py_int_acc k s = k * 10 ^ String.length s + py_int_acc 0 s.
Proof.
  induction s as [|a r IH]; intros k; simpl; [lia|].
  rewrite (IH (k * 10 + _)), (IH (nat_of_ascii a - 48)). ring.
Qed.

Lemma digit_char n : nat_of_ascii (ascii_of_nat (48 + n mod 10)) = 48 + n mod 10.
Proof.
  apply nat_ascii_embedding. assert (n mod 10 < 10) by (apply Nat.mod_upper_bound; discriminate). lia.
Qed.

Lemma py_int_cons_digit n acc :
  py_int (String (ascii_of_nat (48 + n mod 10)) acc)
  = n mod 10 * 10 ^ String.length acc + py_int acc.
Proof.
  unfold py_int. cbn [py_int_acc String.length]. rewrite digit_char, py_int_acc_shift.
  replace (48 + n mod 10 - 48) with (n mod 10) by lia. reflexivity.
Qed.

Lemma dec_digits_value fuel : forall n acc, n < 10 ^ fuel ->
  py_int (dec_digits fuel n acc) = n * 10 ^ String.length acc + py_int acc.
Proof.
  induction fuel as [|fuel IH]; intros n acc H; cbn [dec_digits].
  - rewrite Nat.pow_0_r in H. replace n with 0 by lia. reflexivity.
  - rewrite Nat.pow_succ_r' in H. destruct (Nat.ltb_spec n 10).
    + rewrite py_int_cons_digit, Nat.mod_small by lia. reflexivity.
    + rewrite IH.
      * rewrite py_int_cons_digit. cbn [String.length]. rewrite Nat.pow_succ_r'.
        rewrite (Nat.div_mod_eq n 10) at 3. ring.
      * apply Nat.Div0.div_lt_upper_bound. lia.
Qed.

Lemma pow10_gt n : n < 10 ^ n.
Proof.
  induction n as [|n IH]; [simpl; lia|]. rewrite Nat.pow_succ_r'. lia.
Qed.

Lemma str_of_nat_value n : py_int (str_of_nat n) = n.
Proof.
  unfold str_of_nat. rewrite dec_digits_value; [unfold py_int; cbn [String.length py_int_acc]; rewrite Nat.pow_0_r; lia|].
  pose proof (pow10_gt (S n)). lia.
Qed.

Lemma zeros_S k : String.concat "" (repeat "0" (S k)) = String "0" (String.concat "" (repeat "0" k)).
Proof. destruct k; reflexivity. Qed.

Lemma zeros_value k : py_int_acc 0 (String.concat "" (repeat "0" k)) = 0.
Proof.
  induction k as [|k IH]; [reflexivity|]. rewrite zeros_S. simpl. exact IH.
Qed.

Lemma zeros_length k : String.length (String.concat "" (repeat "0" k)) = k.
Proof. induction k as [|k IH]; [reflexivity|]. rewrite zeros_S. simpl. rewrite IH. reflexivity. Qed.

Lemma zeros_digits k : all_digits (String.concat "" (repeat "0" k)) = true.
Proof. induction k as [|k IH]; [reflexivity|]. rewrite zeros_S. simpl. exact IH. Qed.

Lemma all_digits_app s t : all_digits (s ++ t) = all_digits s && all_digits t.
Proof. induction s as [|a s IH]; simpl; [reflexivity|rewrite IH, andb_assoc; reflexivity]. Qed.

Lemma dec_digits_digits fuel : forall n acc,
  all_digits (dec_digits fuel n acc) = all_digits acc.
Proof.
  induction fuel as [|fuel IH]; intros n acc; cbn [dec_digits]; [reflexivity|].
  assert (Hd : is_digit (ascii_of_nat (48 + n mod 10)) = true).
  { unfold is_digit. rewrite digit_char.
    assert (n mod 10 < 10) by (apply Nat.mod_upper_bound; discriminate).
    apply andb_true_intro; split; apply Nat.leb_le; lia. }
  destruct (Nat.ltb n 10); [|rewrite IH]; cbn [all_digits]; rewrite Hd; reflexivity.
Qed.

Lemma dec_digits_length fuel : forall n acc k, 1 <= k -> n < 10 ^ k ->
  String.length (dec_digits fuel n acc) <= k + String.length acc.
Proof.
  induction fuel as [|fuel IH]; intros n acc k Hk Hn; cbn [dec_digits]; [lia|].
  destruct (Nat.ltb_spec n 10); [cbn [String.length]; lia|].
  destruct k as [|k]; [lia|]. rewrite Nat.pow_succ_r' in Hn.
  destruct k as [|k]; [rewrite Nat.pow_0_r in Hn; lia|].
  assert (Hq : n / 10 < 10 ^ S k) by (apply Nat.Div0.div_lt_upper_bound; lia).
  pose proof (IH (n / 10) (String (ascii_of_nat (48 + n mod 10)) acc) (S k) ltac:(lia) Hq) as H1.
  cbn [String.length] in H1. lia.
Qed.

Lemma fmt06_value n : py_int (fmt06 n) = n.
Proof.
  unfold fmt06, py_int. rewrite py_int_acc_app, zeros_value. apply str_of_nat_value.
Qed.

Lemma fmt06_digits n : all_digits (fmt06 n) = true.
Proof.
  unfold fmt06. rewrite all_digits_app, zeros_digits. unfold str_of_nat.
  rewrite dec_digits_digits. reflexivity.
Qed.

Lemma fmt06_length n :
  6 <= String.length (fmt06 n) /\ (n < 10 ^ 6 -> String.length (fmt06 n) = 6).
Proof.
  unfold fmt06. rewrite str_length_app, zeros_length. split; [lia|].
  intros Hn. assert (String.length (str_of_nat n) <= 6).
  { unfold str_of_nat. exact (dec_digits_length (S n) n "" 6 ltac:(lia) Hn). }
  lia.
Qed.

Lemma fmt06_inj a b : fmt06 a = fmt06 b -> a = b.
Proof. intros H. rewrite <- (fmt06_value a), <- (fmt06_value b), H. reflexivity. Qed.

Lemma str_app_cancel (s t u : string) : (s ++ t = s ++ u)%string -> t = u.
Proof. induction s as [|a s IH]; simpl; [auto|]. intros H. injection H. exact IH. Qed.

Lemma map_inj_NoDup {A B} (f : A -> B) l :
  (forall a b, f a = f b -> a = b) -> NoDup l -> NoDup (map f l).
Proof.
  intros Hf Hl. induction Hl as [|x l Hx Hl IH]; simpl; constructor; [|exact IH].
  intros Hin. apply in_map_iff in Hin as [y [Hy Hin]]. apply Hf in Hy. subst. contradiction.
Qed.

Lemma auto_ids_NoDup fs n : NoDup (auto_ids fs n).
Proof.
  unfold auto_ids. apply map_inj_NoDup; [|apply seq_NoDup].
  intros a b H. injection H as H. apply str_app_cancel in H.
  apply (str_app_cancel "-AUTO-") in H. apply fmt06_inj in H. lia.
Qed.

Ltac sources_inv Hs :=
  let Hl := fresh in
  pose proof (sources_ok_length _ _ Hs) as Hl;
  match type of Hs with sources_ok _ ?vs =>
    destruct vs as [|?v1 [|?v2 [|?v3 [|?v4 [|?v5 [|?v6 [|?v7 [|?v8 [|?v9 [|?v10 [|]]]]]]]]]]];
    try discriminate Hl end;
  unfold sources_ok, REQUIRED_COLUMNS in Hs;
  repeat match goal with
         | H : Forall2 _ (_ :: _) (_ :: _) |- _ => inversion H; clear H; subst
         | H : Forall2 _ [] [] |- _ => clear H
         end.

Lemma Forall_fillna v x : Forall (fun e => is_na e = false) (fillna v x).
Proof.
  unfold fillna. apply Forall_forall. intros e He. apply in_map_iff in He as [e' [<- _]].
  destruct (is_na e') eqn:E; [reflexivity|exact E].
Qed.

Lemma App_harmonize_pid df fs out :
  App.harmonize_schema df fs = Some out ->
  exists pid, source_values df (aliases_of "permit_id") = Some pid.
Proof.
  intros H. destruct (App_harmonize_some _ _ _ H) as [vs [Hs _]].
  inversion Hs; subst. eexists; eassumption.
Qed.

Lemma Ingest_harmonize_pid parse now df fs out :
  Ingest.harmonize_schema parse now df fs = Some out ->
  exists pid, source_values df (aliases_of "permit_id") = Some pid.
Proof.
  intros H. destruct (Ingest_harmonize_some _ _ _ _ _ H) as [vs [Hs _]].
  inversion Hs; subst. eexists; eassumption.
Qed.

(** X1.  The identifier [harmonize_schema] synthesizes for record [i] is
    [<fallback_state>-AUTO-] followed by decimal digits that read back, with
    [int], as [i + 1]; the number is zero-padded to six digits, and longer
    only from record 1000000 on. *)
Theorem auto_ids_numbered (fs : string) (n i : nat) (Hi : i < n) :
  exists d, nth i (auto_ids fs n) VNA = VStr (fs ++ "-AUTO-" ++ d) /\
    all_digits d = true /\ py_int d = i + 1 /\
    6 <= String.length d /\ (i + 1 < 10 ^ 6 -> String.length d = 6).
Proof.
  exists (fmt06 (i + 1)). rewrite auto_ids_nth by exact Hi.
  split; [reflexivity|]. split; [apply fmt06_digits|]. split; [apply fmt06_value|].
  apply fmt06_length.
Qed.

Lemma auto_ids_numbered_witness :
  1 < 2 /\ nth 1 (auto_ids "TX" 2) VNA = VStr "TX-AUTO-000002" /\ py_int "000002" = 2 /\
  exists d, nth 1 (auto_ids "TX" 2) VNA = VStr ("TX" ++ "-AUTO-" ++ d) /\
    all_digits d = true /\ py_int d = 1 + 1 /\
    6 <= String.length d /\ (1 + 1 < 10 ^ 6 -> String.length d = 6).
Proof.
  split; [lia|]. split; [reflexivity|]. split; [reflexivity|].
  apply (auto_ids_numbered "TX" 2 1). lia.
Defined.

(** X2.  When every source [permit_id] cell is null, both harmonizers
    give one synthesized identifier per record and no two records share one. *)
Theorem synthesized_permit_ids_distinct :
  (forall df fs out, App.harmonize_schema df fs = Some out -> permit_ids_all_na df = true ->
     length (get_col (cols out) "permit_id") = nrows df /\
     NoDup (get_col (cols out) "permit_id")) /\
  (forall parse now df fs out, Ingest.harmonize_schema parse now df fs = Some out ->
     permit_ids_all_na df = true ->
     length (get_col (cols out) "permit_id") = nrows df /\
     NoDup (get_col (cols out) "permit_id")).
Proof.
  split.
  - intros df fs out H Hna. destruct (App_harmonize_pid _ _ _ H) as [pid Hp].
    unfold permit_ids_all_na in Hna. rewrite Hp in Hna.
    rewrite (App_permit_id _ _ _ _ H Hp), Hna.
    split; [apply auto_ids_length|apply auto_ids_NoDup].
  - intros parse now df fs out H Hna. destruct (Ingest_harmonize_pid _ _ _ _ _ H) as [pid Hp].
    unfold permit_ids_all_na in Hna. rewrite Hp in Hna.
    rewrite (Ingest_permit_id _ _ _ _ _ _ H Hp), Hna.
    split; [apply auto_ids_length|apply auto_ids_NoDup].
Qed.

(** X3.  In both harmonizers the columns [state], [status],
    [permit_type], [operator], [county_parish] and [well_name] are the
    resolved source column with each null replaced by its default (the
    fallback state, "Pending", "Unknown", "Unknown Operator", "Unknown",
    "Unknown Well"), so none of them holds a null. *)
Theorem harmonize_fills_defaults :
  (forall df fs out, App.harmonize_schema df fs = Some out ->
     forall c x, In (c, x) [("state", fs); ("status", "Pending"); ("permit_type", "Unknown");
                            ("operator", "Unknown Operator"); ("county_parish", "Unknown");
                            ("well_name", "Unknown Well")] ->
     exists v, source_values df (aliases_of c) = Some v /\
       get_col (cols out) c = fillna v x /\
       Forall (fun e => is_na e = false) (get_col (cols out) c)) /\
  (forall parse now df fs out, Ingest.harmonize_schema parse now df fs = Some out ->
     forall c x, In (c, x) [("state", fs); ("status", "Pending"); ("permit_type", "Unknown");
                            ("operator", "Unknown Operator"); ("county_parish", "Unknown");
                            ("well_name", "Unknown Well")] ->
     exists v, source_values df (aliases_of c) = Some v /\
       get_col (cols out) c = fillna v x /\
       Forall (fun e => is_na e = false) (get_col (cols out) c)).
Proof.
  split.
  - intros df fs out H c x Hin. destruct (App_harmonize_some _ _ _ H) as [vs [Hs ->]].
    sources_inv Hs.
    simpl in Hin; repeat destruct Hin as [Hin|Hin]; try contradiction; injection Hin as <- <-;
      (eexists; split; [eassumption|]); cbn [cols app_out_cols get_col String.eqb Ascii.eqb Bool.eqb andb];
      (split; [reflexivity|apply Forall_fillna]).
  - intros parse now df fs out H c x Hin. destruct (Ingest_harmonize_some _ _ _ _ _ H) as [vs [Hs ->]].
    sources_inv Hs.
    simpl in Hin; repeat destruct Hin as [Hin|Hin]; try contradiction; injection Hin as <- <-;
      (eexists; split; [eassumption|]); cbn [cols ingest_out_cols get_col String.eqb Ascii.eqb Bool.eqb andb];
      (split; [reflexivity|apply Forall_fillna]).
Qed.

Lemma Forall_to_datetime parse v :
  Forall (fun x => x = VNA \/ exists t, x = VTime t) (to_datetime parse v).
Proof.
  unfold to_datetime. apply Forall_forall. intros e He. apply in_map_iff in He as [e' [<- _]].
  apply date_cell_kind.
Qed.

(** X4.  In the batch job's harmonizer each date column is the resolved
    source column passed through [pd.to_datetime(errors="coerce")], so it
    holds only timestamps and nulls, and [ingested_at_utc] holds the same
    timestamp, the time of the run, in every record. *)
Theorem ingest_output_typed :
  forall parse now df fs out, Ingest.harmonize_schema parse now df fs = Some out ->
    (forall c, In c Ingest.DATE_COLUMNS ->
       exists v, source_values df (aliases_of c) = Some v /\
         get_col (cols out) c = to_datetime parse v /\
         Forall (fun x => x = VNA \/ exists t, x = VTime t) (get_col (cols out) c)) /\
    get_col (cols out) "ingested_at_utc" = repeat (VTime now) (nrows df).
Proof.
  intros parse now df fs out H. destruct (Ingest_harmonize_some _ _ _ _ _ H) as [vs [Hs ->]].
  sources_inv Hs. split; [|reflexivity].
  intros c Hin. simpl in Hin; repeat destruct Hin as [Hin|Hin]; try contradiction; subst c;
    (eexists; split; [eassumption|]);
    cbn [cols ingest_out_cols get_col String.eqb Ascii.eqb Bool.eqb andb];
    (split; [reflexivity|apply Forall_to_datetime]).
Qed.


Lemma date_cell_idem parse x : date_cell parse (date_cell parse x) = date_cell parse x.
Proof. destruct x; simpl; try reflexivity; destruct (parse _) as [[? ?]|]; reflexivity. Qed.

Lemma coerce_dates_idem parse f : coerce_dates parse (coerce_dates parse f) = coerce_dates parse f.
Proof.
  unfold coerce_dates. cbn [nrows cols]. f_equal. rewrite map_map. apply map_ext.
  intros [c v]. cbn [fst snd]. destruct (is_date_col c) eqn:E; cbn [fst snd]; rewrite ?E;
    [|reflexivity].
  f_equal. unfold to_datetime. rewrite map_map. apply map_ext. apply date_cell_idem.
Qed.

Lemma coerce_dates_cols parse f :
  cols (coerce_dates parse f)
  = map (fun p => if is_date_col (fst p) then (fst p, to_datetime parse (snd p)) else p) (cols f).
Proof. reflexivity. Qed.

Lemma coerce_getitem parse f c v :
  df_getitem f c = Some v -> exists w, df_getitem (coerce_dates parse f) c = Some w.
Proof.
  unfold df_getitem. rewrite coerce_dates_cols, filter_map_same.
  - intros H. destruct (filter _ (cols f)) as [|[c0 v0] [|q r]]; try discriminate H.
    cbn [map fst snd]. destruct (is_date_col c0); eexists; reflexivity.
  - intros [c' v']. cbn [fst]. destruct (is_date_col c'); reflexivity.
Qed.

Lemma coerce_dates_columns parse f : columns (coerce_dates parse f) = columns f.
Proof. apply (proj1 (proj2 (coerce_dates_shape parse f))). Qed.

Lemma unmixed_times parse v :
  Forall (fun x => x = VNA \/ exists t, x = VTime t) v -> mixed_offsets parse v = false.
Proof.
  intros H.
  assert (E : flat_map (fun x => match cell_offset parse x with
                                 | Some o => [o] | None => [] end) v = []).
  { induction H as [|x v Hx _ IH]; [reflexivity|]. cbn [flat_map]. rewrite IH.
    destruct Hx as [->|[t ->]]; reflexivity. }
  unfold mixed_offsets. rewrite E. reflexivity.
Qed.

Lemma coerce_convertible parse f :
  dates_convertible parse f -> dates_convertible parse (coerce_dates parse f).
Proof.
  intros H c Hc. destruct (H c Hc) as [v [Hv _]].
  destruct (coerce_getitem parse _ _ _ Hv) as [w Hw]. exists w. split; [exact Hw|].
  apply unmixed_times, (coerce_getitem_date _ _ _ _ Hw).
  unfold is_date_col. apply existsb_eqb_in. exact Hc.
Qed.

(** X6.  [normalize_dates] is idempotent: once a call succeeds, calling it
    again on the object it returned succeeds too and leaves every object
    unchanged. *)
Theorem normalize_dates_idempotent :
  forall parse σ l σ1 l1, Page.normalize_dates parse σ l = (σ1, inr l1) ->
    l1 = l /\ snd (Page.normalize_dates parse σ1 l1) = inr l1 /\
    forall l', fst (Page.normalize_dates parse σ1 l1) l' = σ1 l'.
Proof.
  intros parse σ l σ1 l1 E. pose proof (normalize_dates_ok _ _ _ _ _ E) as H. cbn beta iota in H.
  destruct H as [-> [f [Hf [Hall [H1 H2]]]]].
  pose proof (coerce_convertible _ _ Hall) as Hall'.
  destruct (proj1 (normalize_dates_result parse σ1 l _ H1) Hall') as [R1 [R2 R3]].
  split; [reflexivity|]. split; [exact R1|].
  intros l'. destruct (Nat.eq_dec l' l) as [->|Hne].
  - rewrite R2, H1, coerce_dates_idem. reflexivity.
  - apply R3, Hne.
Qed.

Lemma getitem_absent f c : ~ In c (columns f) -> df_getitem f c = None.
Proof.
  unfold df_getitem, columns. intros Hn.
  assert (F : filter (fun p => String.eqb (fst p) c) (cols f) = []).
  { induction (cols f) as [|[c' v'] l IH]; simpl; [reflexivity|].
    simpl in Hn. destruct (String.eqb_spec c' c); [tauto|]. apply IH. tauto. }
  rewrite F. reflexivity.
Qed.

Lemma getitem_present f c : NoDup (columns f) -> In c (columns f) ->
  df_getitem f c = Some (get_col (cols f) c).
Proof.
  intros Hnd Hin. destruct (getitem_unique (cols f) c Hnd Hin) as [v Hv].
  assert (E : df_getitem f c = Some v) by (unfold df_getitem; rewrite Hv; reflexivity).
  rewrite E, (getitem_get_col _ _ _ E). reflexivity.
Qed.

Lemma frame_set_columns f c v w :
  df_getitem f c = Some v -> columns (frame_set f c w) = columns f.
Proof.
  intros H. unfold frame_set, columns. cbn [cols]. rewrite (set_col_getitem _ _ _ _ H), map_map.
  apply map_ext. intros [c' v']. unfold replace_named. cbn [fst].
  destruct (String.eqb_spec c' c) as [->|]; reflexivity.
Qed.

Lemma normalize_loop_keyerror parse l c cs :
  forall σ f, σ l = Some f -> NoDup (columns f) ->
  (forall c', In c' cs -> In c' (columns f) -> mixed_offsets parse (get_col (cols f) c') = false) ->
  find (fun c => negb (existsb (String.eqb c) (columns f))) cs = Some c ->
  snd (Page.normalize_loop parse cs σ l) = Some ("KeyError: " ++ c)%string.
Proof.
  induction cs as [|col rest IH]; intros σ f Hl Hnd Hmix Hfind; [discriminate|].
  cbn [Page.normalize_loop find] in *. rewrite Hl.
  destruct (existsb (String.eqb col) (columns f)) eqn:Ein; cbn [negb] in Hfind.
  - apply existsb_eqb_in in Ein. rewrite (getitem_present _ _ Hnd Ein).
    unfold to_datetime_checked. rewrite (Hmix col (or_introl eq_refl) Ein). cbv beta iota.
    pose proof (frame_set_columns _ _ _ (to_datetime parse (get_col (cols f) col))
                  (getitem_present _ _ Hnd Ein)) as Hcols.
    apply (IH _ (frame_set f col (to_datetime parse (get_col (cols f) col)))).
    + apply upd_same.
    + rewrite Hcols. exact Hnd.
    + intros c' Hc' Hin'. rewrite Hcols in Hin'. unfold frame_set. cbn [cols].
      destruct (String.eqb_spec col c') as [<-|Hne].
      * rewrite get_col_set_same. apply unmixed_times, Forall_to_datetime.
      * rewrite (get_col_set_other _ _ _ _ Hne). apply Hmix; [right; exact Hc' | exact Hin'].
    + rewrite Hcols. exact Hfind.
  - injection Hfind as Hc. subst. rewrite getitem_absent.
    + cbn [snd]. rewrite ?Ein. reflexivity.
    + intros Hin. apply existsb_eqb_in in Hin. congruence.
Qed.

(** X7.  On a batch with distinct column names that lacks one of the
    three date columns, and none of whose present date columns mixes UTC
    offsets, [normalize_dates] raises [KeyError] naming the first missing
    one. *)
Theorem missing_date_column_crashes :
  forall parse σ l f c, σ l = Some f -> NoDup (columns f) ->
    (forall c', In c' Page.DATE_COLUMNS -> In c' (columns f) ->
       mixed_offsets parse (get_col (cols f) c') = false) ->
    find (fun c => negb (existsb (String.eqb c) (columns f))) Page.DATE_COLUMNS = Some c ->
    snd (Page.normalize_dates parse σ l) = inl ("KeyError: " ++ c)%string.
Proof.
  intros parse σ l f c Hl Hnd Hmix Hf. unfold Page.normalize_dates.
  pose proof (normalize_loop_keyerror parse l c _ σ f Hl Hnd Hmix Hf) as H.
  destruct (Page.normalize_loop parse Page.DATE_COLUMNS σ l) as [σ' e]. cbn [snd] in H.
  subst e. reflexivity.
Qed.



Lemma le_mask_days today k ex :
  Dashboard.le_mask (map (Page.days_to_expiry today) ex) k
  = map (before (today + (k + 1) * 86400)) ex.
Proof.
  unfold Dashboard.le_mask. rewrite map_map. apply map_ext. intros x.
  destruct x; try reflexivity. cbn [Page.days_to_expiry before].
  pose proof (Z.div_mod (t - today) 86400 ltac:(lia)).
  pose proof (Z.mod_pos_bound (t - today) 86400 ltac:(lia)).
  destruct (Z.leb_spec ((t - today) / 86400) k); destruct (Z.ltb_spec t (today + (k + 1) * 86400));
    try reflexivity; lia.
Qed.

(** X9.  On a rendered page, [days_to_expiry <= k] holds exactly for the
    records whose expiration timestamp is before midnight [k + 1] days after
    today; so the "Expiring <= 60 days" metric counts the records expiring
    before midnight 61 days ahead, already expired ones included and null
    dates excluded. *)
Theorem expiry_horizon_mask :
  forall parse now σ l σ' l' out, Page.run_metrics parse now σ l = Page.Rendered σ' l' ->
    σ' l' = Some out ->
    (forall k v, df_getitem out "days_to_expiry" = Some v ->
       Dashboard.le_mask v k
       = map (before (Page.today_of now + (k + 1) * 86400)) (get_col (cols out) "expiration_date")) /\
    (forall n, Dashboard.expiring_metric out = Some n ->
       n = Dashboard.count_true
             (map (before (Page.today_of now + 61 * 86400)) (get_col (cols out) "expiration_date"))).
Proof.
  intros parse now σ l σ' l' out E Hout.
  destruct (run_metrics_rendered _ _ _ _ _ _ E) as [out' [Hout' [Hd _]]].
  rewrite Hout in Hout'. injection Hout' as <-.
  assert (K : forall k v, df_getitem out "days_to_expiry" = Some v ->
       Dashboard.le_mask v k
       = map (before (Page.today_of now + (k + 1) * 86400)) (get_col (cols out) "expiration_date")).
  { intros k v Hv. rewrite <- (getitem_get_col _ _ _ Hv), Hd. apply le_mask_days. }
  split; [exact K|].
  intros n Hn. unfold Dashboard.expiring_metric in Hn.
  destruct (df_getitem out "days_to_expiry") as [v|] eqn:Hv; [|discriminate].
  injection Hn as <-. rewrite (K 60%Z v eq_refl). reflexivity.
Qed.

Lemma source_values_length df cands v :
  wf df -> source_values df cands = Some v -> length v = nrows df.
Proof.
  unfold source_values. intros Hwf.
  destruct (_find_alias_column (columns df) cands).
  - apply getitem_length, Hwf.
  - intros H. injection H as <-. apply repeat_length.
Qed.

Ltac wf_cols :=
  repeat match goal with
         | H : source_values ?df _ = Some _, Hwf : wf ?df |- _ =>
             pose proof (source_values_length _ _ _ Hwf H); clear H
         end;
  unfold wf; cbn [cols nrows app_out_cols ingest_out_cols];
  repeat apply Forall_cons; try apply Forall_nil; cbn [snd]; unfold fillna, to_datetime;
  rewrite ?length_map, ?repeat_length; try assumption; try reflexivity;
  match goal with |- context [forallb is_na ?p] => destruct (forallb is_na p) end;
  [apply auto_ids_length|assumption].

Lemma App_harmonize_wf df fs out :
  wf df -> App.harmonize_schema df fs = Some out -> wf out.
Proof.
  intros Hwf H. destruct (App_harmonize_some _ _ _ H) as [vs [Hs ->]].
  sources_inv Hs. wf_cols.
Qed.

Lemma Ingest_harmonize_wf parse now df fs out :
  wf df -> Ingest.harmonize_schema parse now df fs = Some out -> wf out.
Proof.
  intros Hwf H. destruct (Ingest_harmonize_some _ _ _ _ _ H) as [vs [Hs ->]].
  sources_inv Hs. wf_cols.
Qed.

(** X5.  Both harmonizers keep the number of records and build a
    rectangular frame: on a well-formed input every output column has one
    cell per input record. *)
Theorem harmonize_rectangular :
  (forall df fs out, wf df -> App.harmonize_schema df fs = Some out ->
     wf out /\ nrows out = nrows df) /\
  (forall parse now df fs out, wf df -> Ingest.harmonize_schema parse now df fs = Some out ->
     wf out /\ nrows out = nrows df).
Proof.
  split.
  - intros df fs out Hwf H. split; [exact (App_harmonize_wf _ _ _ Hwf H)|].
    destruct (App_harmonize_some _ _ _ H) as [vs [_ ->]]. reflexivity.
  - intros parse now df fs out Hwf H. split; [exact (Ingest_harmonize_wf _ _ _ _ _ Hwf H)|].
    destruct (Ingest_harmonize_some _ _ _ _ _ H) as [vs [_ ->]]. reflexivity.
Qed.


Lemma cache_lookup_same k w w' :
  cache w' = cache w -> clock w' = clock w -> cache_lookup k w' = cache_lookup k w.
Proof. unfold cache_lookup. intros -> ->. reflexivity. Qed.

Lemma fetch_miss_calls_gt L url st w :
  cache_lookup (url, st) w = None ->
  calls w < calls (fst (fetch_remote_permits L url st w)).
Proof.
  intros Hl. unfold fetch_remote_permits. rewrite Hl.
  destruct (fetch_body L url st w) as [w1 r1] eqn:Eb.
  destruct (fetch_body_world _ _ _ _ _ _ Eb) as [_ [_ [Hc _]]].
  destruct r1; cbn [fst calls]; lia.
Qed.

Lemma key_eqb_true k k' : key_eqb k k' = true -> k = k'.
Proof.
  destruct k as [a b], k' as [c d]. unfold key_eqb. cbn [fst snd].
  intros H. apply andb_prop in H as [H1 H2].
  apply String.eqb_eq in H1, H2. subst. reflexivity.
Qed.

Lemma cache_get_put_other k k' e c :
  k' <> k -> cache_get k' (cache_put k e c) = cache_get k' c.
Proof.
  intros Hne. induction c as [|[k0 e0] c IH]; cbn [cache_put cache_get].
  - destruct (key_eqb k' k) eqn:E; [apply key_eqb_true in E; contradiction|reflexivity].
  - destruct (key_eqb k k0) eqn:E0; cbn [cache_get].
    + apply key_eqb_true in E0. subst k0.
      destruct (key_eqb k' k) eqn:E; [apply key_eqb_true in E; contradiction|reflexivity].
    + destruct (key_eqb k' k0); [reflexivity|exact IH].
Qed.

(** X14.  A failed uncached fetch stores nothing: the cache and clock are
    unchanged, at least one request was made, and the next fetch of the same
    key goes to the network again. *)
Theorem failed_fetch_not_cached :
  forall L url st w w1 e, fetch_remote_permits L url st w = (w1, inl e) ->
    cache w1 = cache w /\ clock w1 = clock w /\ calls w < calls w1 /\
    cache_lookup (url, st) w1 = None /\
    calls w1 < calls (fst (fetch_remote_permits L url st w1)).
Proof.
  intros L url st w w1 e E. unfold fetch_remote_permits in E.
  destruct (cache_lookup (url, st) w) as [f|] eqn:Hl; [discriminate|].
  destruct (fetch_body L url st w) as [w2 [e2|f2]] eqn:Eb; [|discriminate].
  injection E as <- <-.
  destruct (fetch_body_world _ _ _ _ _ _ Eb) as [Hc [Hk [Hn _]]].
  assert (Hl1 : cache_lookup (url, st) w2 = None) by (rewrite (cache_lookup_same _ w); assumption).
  split; [exact Hc|]. split; [exact Hk|]. split; [lia|]. split; [exact Hl1|].
  apply fetch_miss_calls_gt, Hl1.
Qed.

Lemma failed_fetch_not_cached_witness :
  fetch_remote_permits offline_libs demo_url "TX" (mkWorld [] 0 0)
  = (mkWorld [] 1 0, inl "ConnectionError: Max retries exceeded") /\
  cache_lookup (demo_url, "TX") (mkWorld [] 1 0) = None.
Proof.
  split; [reflexivity|].
  exact (proj1 (proj2 (proj2 (proj2 (failed_fetch_not_cached offline_libs demo_url "TX"
           (mkWorld [] 0 0) (mkWorld [] 1 0) "ConnectionError: Max retries exceeded"
           eq_refl))))).
Defined.

(** X15.  A cached batch stops being served once more than the TTL (3600
    seconds) has passed since it was stored: the next fetch of the key goes
    to the network. *)
Theorem cache_entry_expires :
  forall L url st w w1 f d, cache_lookup (url, st) w = None ->
    fetch_remote_permits L url st w = (w1, inr f) -> (TTL < d)%Z ->
    cache_lookup (url, st) (tick d w1) = None /\
    calls w1 < calls (fst (fetch_remote_permits L url st (tick d w1))).
Proof.
  intros L url st w w1 f d Hl E Hd. unfold fetch_remote_permits in E. rewrite Hl in E.
  destruct (fetch_body L url st w) as [w2 [e|g]] eqn:Eb; [discriminate|].
  injection E as <- <-.
  assert (Hx : cache_lookup (url, st)
                 (tick d (mkWorld (cache_put (url, st) (clock w2, g) (cache w2))
                                  (calls w2) (clock w2))) = None).
  { unfold cache_lookup, tick. cbn [cache clock calls]. rewrite cache_get_put.
    replace (clock w2 + d - clock w2)%Z with d by lia.
    destruct (Z.ltb_spec d TTL); [lia|reflexivity]. }
  split; [exact Hx|]. exact (fetch_miss_calls_gt L url st _ Hx).
Qed.

(** X16.  A fetch of one (url, state) key leaves what the cache serves for
    every other key unchanged. *)
Theorem fetch_keeps_other_entries :
  forall L url st w w1 r k, k <> (url, st) ->
    fetch_remote_permits L url st w = (w1, r) ->
    clock w1 = clock w /\ cache_lookup k w1 = cache_lookup k w.
Proof.
  intros L url st w w1 r k Hk E. unfold fetch_remote_permits in E.
  destruct (cache_lookup (url, st) w) as [f|] eqn:Hl.
  { injection E as <- <-. auto. }
  destruct (fetch_body L url st w) as [w2 [e|g]] eqn:Eb;
    destruct (fetch_body_world _ _ _ _ _ _ Eb) as [Hc [Hk' _]];
    injection E as <- <-.
  - split; [exact Hk'|]. apply cache_lookup_same; assumption.
  - cbn [clock]. split; [exact Hk'|]. unfold cache_lookup. cbn [cache clock].
    rewrite cache_get_put_other by exact Hk. rewrite Hc, Hk'. reflexivity.
Qed.

Lemma cache_entry_expires_witness :
  cache_lookup (demo_url, "TX")
    (tick 3601 (fst (fetch_remote_permits demo_libs demo_url "TX" (mkWorld [] 0 0)))) = None.
Proof.
  destruct (fetch_remote_permits demo_libs demo_url "TX" (mkWorld [] 0 0)) as [w1 r] eqn:E.
  assert (Hr : r = inr (mkFrame 1 (app_out_cols "TX" 1
            [[VStr "42-1"]; [VNA]; [VStr "Acme"]; [VNA]; [VNA];
             [VNA]; [VNA]; [VNA]; [VNA]; [VNA]])))
    by (vm_compute in E; injection E as _ <-; reflexivity).
  subst r. simpl fst.
  exact (proj1 (cache_entry_expires demo_libs demo_url "TX" (mkWorld [] 0 0) w1 _ 3601%Z
                  eq_refl E ltac:(unfold TTL; lia))).
Defined.

Lemma fetch_keeps_other_entries_witness :
  cache_lookup (demo_url, "LA")
    (fst (fetch_remote_permits demo_libs demo_url "TX"
            (mkWorld [((demo_url, "LA"), (0%Z, empty_required))] 0 0)))
  = Some empty_required.
Proof.
  destruct (fetch_remote_permits demo_libs demo_url "TX"
              (mkWorld [((demo_url, "LA"), (0%Z, empty_required))] 0 0)) as [w1 r] eqn:E.
  simpl fst.
  rewrite (proj2 (fetch_keeps_other_entries demo_libs demo_url "TX" _ w1 r (demo_url, "LA")
                    ltac:(intros H; injection H; discriminate) E)).
  reflexivity.
Defined.


Lemma fetch_remote_world L url st w w' r :
  fetch_remote L url st w = (w', r) ->
  cache w' = cache w /\ clock w' = clock w /\ calls w' = S (calls w) /\
  (forall f, r = inr f -> exists raw, Ingest.harmonize_schema (parse_date L) (clock w) raw st = Some f).
Proof.
  unfold fetch_remote, bind, requests_get, raise_for_status, lift.
  cbn -[Ingest.harmonize_schema_exc _response_to_dataframe py_lower str_of_nat Nat.leb Nat.ltb].
  destruct (http_get L (calls w) url 60) as [e1|r1].
  { intros H. injection H as <- <-. cbn. repeat split; discriminate. }
  cbn -[Ingest.harmonize_schema_exc _response_to_dataframe py_lower str_of_nat Nat.leb Nat.ltb].
  destruct (Nat.leb 400 (status_code r1) && Nat.ltb (status_code r1) 500).
  { intros H. injection H as <- <-. cbn. repeat split; discriminate. }
  cbn -[Ingest.harmonize_schema_exc _response_to_dataframe py_lower str_of_nat Nat.leb Nat.ltb].
  destruct (Nat.leb 500 (status_code r1) && Nat.ltb (status_code r1) 600).
  { intros H. injection H as <- <-. cbn. repeat split; discriminate. }
  cbn -[Ingest.harmonize_schema_exc _response_to_dataframe py_lower str_of_nat Nat.leb Nat.ltb].
  destruct (_response_to_dataframe L (content r1) (py_lower (content_type r1))) as [e3|raw].
  { intros H. injection H as <- <-. cbn. repeat split; discriminate. }
  intros H. injection H as <- <-. cbn. repeat split.
  intros f Hf. exists raw. unfold Ingest.harmonize_schema. rewrite Hf. reflexivity.
Qed.

Lemma fetch_remote_columns L url st w w' f :
  fetch_remote L url st w = (w', inr f) -> columns f = INGEST_COLUMNS.
Proof.
  intros E. destruct (fetch_remote_world _ _ _ _ _ _ E) as [_ [_ [_ Hr]]].
  destruct (Hr f eq_refl) as [raw Hraw]. exact (Ingest_harmonize_columns _ _ _ _ _ Hraw).
Qed.

Lemma pd_concat_two a b :
  columns a = INGEST_COLUMNS -> columns b = INGEST_COLUMNS ->
  pd_concat [a; b]
  = mkFrame (nrows a + nrows b)
      (map (fun c => (c, get_col (cols a) c ++ get_col (cols b) c)) INGEST_COLUMNS).
Proof.
  intros Ha Hb. unfold pd_concat. cbn [map list_sum flat_map]. rewrite Ha, Hb.
  f_equal; [unfold list_sum; cbn [fold_right]; lia|]. change (col_union (INGEST_COLUMNS ++ INGEST_COLUMNS ++ []))
    with INGEST_COLUMNS.
  apply map_ext_in. intros c Hc. cbn [map concat]. rewrite ?Ha, ?Hb.
  rewrite (proj2 (existsb_eqb_in c _) Hc), app_nil_r. reflexivity.
Qed.

(** X17.  [main] checks its configuration before any network call: an
    unset or empty source URL raises the source ValueError, and otherwise an
    unset or empty database URL raises the persistence ValueError, with no
    request made. *)
Theorem ingest_main_config_errors :
  (forall L env to_sql w,
     (IngestJob.getenv env "TX_RRC_EXPORT_URL" "" = "" \/
      IngestJob.getenv env "LA_SONRIS_EXPORT_URL" "" = "") ->
     IngestJob.main L env to_sql w
     = (w, inl "ValueError: Set TX_RRC_EXPORT_URL and LA_SONRIS_EXPORT_URL")) /\
  (forall L env to_sql w,
     IngestJob.getenv env "TX_RRC_EXPORT_URL" "" <> "" ->
     IngestJob.getenv env "LA_SONRIS_EXPORT_URL" "" <> "" ->
     IngestJob.getenv env "POSTGRES_URL" "" = "" ->
     IngestJob.main L env to_sql w = (w, inl "ValueError: Set POSTGRES_URL for persistence target")).
Proof.
  split.
  - intros L env to_sql w H. unfold IngestJob.main. cbv beta zeta.
    destruct H as [H|H]; rewrite H; cbn [String.eqb orb]; [reflexivity|].
    rewrite orb_true_r. reflexivity.
  - intros L env to_sql w Htx Hla Hdb. unfold IngestJob.main. cbv beta zeta.
    apply String.eqb_neq in Htx, Hla. rewrite Htx, Hla, Hdb. reflexivity.
Qed.

(** X18.  When both fetches succeed, [main] makes exactly two requests,
    never raises the missing-columns error, appends to [PERMITS_TABLE]
    (default [drilling_permits]) the TX records followed by the LA records
    in the eleven harmonized columns, and prints "Persisted <n> rows to
    <table>" with [n] the total, unless [to_sql] raises. *)
Theorem ingest_main_persists :
  forall L env to_sql w w1 a w2 b,
    IngestJob.getenv env "TX_RRC_EXPORT_URL" "" <> "" ->
    IngestJob.getenv env "LA_SONRIS_EXPORT_URL" "" <> "" ->
    IngestJob.getenv env "POSTGRES_URL" "" <> "" ->
    fetch_remote L (IngestJob.getenv env "TX_RRC_EXPORT_URL" "") "TX" w = (w1, inr a) ->
    fetch_remote L (IngestJob.getenv env "LA_SONRIS_EXPORT_URL" "") "LA" w1 = (w2, inr b) ->
    let data := mkFrame (nrows a + nrows b)
                  (map (fun c => (c, get_col (cols a) c ++ get_col (cols b) c)) INGEST_COLUMNS) in
    let table := IngestJob.getenv env "PERMITS_TABLE" "drilling_permits" in
    calls w2 = calls w + 2 /\ cache w2 = cache w /\
    IngestJob.main L env to_sql w
    = (w2, match to_sql (IngestJob.getenv env "POSTGRES_URL" "") table data with
           | inl e => inl e
           | inr _ => inr ("Persisted " ++ str_of_nat (nrows a + nrows b) ++ " rows to " ++ table)%string
           end).
Proof.
  intros L env to_sql w w1 a w2 b Htx Hla Hdb Ea Eb data table.
  destruct (fetch_remote_world _ _ _ _ _ _ Ea) as [Ca [_ [Na _]]].
  destruct (fetch_remote_world _ _ _ _ _ _ Eb) as [Cb [_ [Nb _]]].
  pose proof (pd_concat_two a b (fetch_remote_columns _ _ _ _ _ _ Ea)
                (fetch_remote_columns _ _ _ _ _ _ Eb)) as Hc.
  split; [lia|]. split; [congruence|].
  unfold IngestJob.main. cbv beta zeta.
  apply String.eqb_neq in Htx, Hla, Hdb. rewrite Htx, Hla, Hdb. cbn [orb].
  unfold bind at 1. rewrite Ea. unfold bind at 1. rewrite Eb.
  rewrite Hc. fold data.
  match goal with |- context [filter ?p REQUIRED_COLUMNS] =>
    replace (filter p REQUIRED_COLUMNS) with (@nil string) by reflexivity end.
  unfold bind, lift, ret. unfold table.
  destruct (to_sql _ _ data); reflexivity.
Qed.

(** X19.  When the TX fetch raises, [main] raises the same error after one
    request: the LA source is never fetched and nothing is written. *)
Theorem ingest_main_tx_failure :
  forall L env to_sql w w1 e,
    IngestJob.getenv env "TX_RRC_EXPORT_URL" "" <> "" ->
    IngestJob.getenv env "LA_SONRIS_EXPORT_URL" "" <> "" ->
    IngestJob.getenv env "POSTGRES_URL" "" <> "" ->
    fetch_remote L (IngestJob.getenv env "TX_RRC_EXPORT_URL" "") "TX" w = (w1, inl e) ->
    calls w1 = calls w + 1 /\ IngestJob.main L env to_sql w = (w1, inl e).
Proof.
  intros L env to_sql w w1 e Htx Hla Hdb Ea.
  destruct (fetch_remote_world _ _ _ _ _ _ Ea) as [_ [_ [Na _]]].
  split; [lia|]. unfold IngestJob.main. cbv beta zeta.
  apply String.eqb_neq in Htx, Hla, Hdb. rewrite Htx, Hla, Hdb. cbn [orb].
  unfold bind at 1. rewrite Ea. reflexivity.
Qed.




Lemma ingest_output_typed_witness :
  exists out, Ingest.harmonize_schema parse_demo 0 alias_batch "TX" = Some out /\
    get_col (cols out) "ingested_at_utc" = [VTime 0] /\
    get_col (cols out) "expiration_date" = [VTime 1772323200].
Proof.
  destruct (Ingest.harmonize_schema parse_demo 0 alias_batch "TX") as [out|] eqn:E;
    [|vm_compute in E; discriminate E].
  exists out. split; [reflexivity|]. split.
  - exact (proj2 (ingest_output_typed parse_demo 0 alias_batch "TX" out E)).
  - vm_compute in E. injection E as <-. reflexivity.
Defined.

Lemma normalize_dates_idempotent_witness :
  snd (Page.normalize_dates parse_demo
         (fst (Page.normalize_dates parse_demo (upd (fun _ => None) 0 full_batch) 0)) 0)
  = inr 0.
Proof.
  assert (Hr : snd (Page.normalize_dates parse_demo (upd (fun _ => None) 0 full_batch) 0) = inr 0)
    by reflexivity.
  destruct (Page.normalize_dates parse_demo (upd (fun _ => None) 0 full_batch) 0) as [σ1 r] eqn:E.
  cbn [snd] in Hr. subst r. cbn [fst].
  exact (proj1 (proj2 (normalize_dates_idempotent parse_demo _ 0 σ1 0 E))).
Defined.

Lemma missing_date_column_crashes_witness :
  snd (Page.normalize_dates parse_demo (upd (fun _ => None) 0 no_approval_batch) 0)
  = inl "KeyError: approval_date".
Proof.
  apply (missing_date_column_crashes parse_demo _ 0 no_approval_batch "approval_date").
  - reflexivity.
  - cbn. repeat constructor; cbn [In]; intuition discriminate.
  - intros c' _ Hin. cbn in Hin. destruct Hin as [<-|[<-|[]]]; vm_compute; reflexivity.
  - reflexivity.
Defined.

Lemma expiry_horizon_mask_witness :
  match Page.run_metrics parse_demo 1767614400%Z (upd (fun _ => None) 0 full_batch) 0 with
  | Page.Rendered σ' l' =>
      match σ' l' with
      | Some out =>
          Dashboard.expiring_metric out
          = Some (Dashboard.count_true
                    (map (before (Page.today_of 1767614400 + 61 * 86400))
                         (get_col (cols out) "expiration_date")))
      | None => False
      end
  | _ => False
  end.
Proof.
  case_eq (Page.run_metrics parse_demo 1767614400%Z (upd (fun _ => None) 0 full_batch) 0);
    [intros m E | intros m E | intros σ' l' E]; try (vm_compute in E; discriminate E).
  case_eq (σ' l'); [intros out Ho|intros Ho; vm_compute in E; injection E as <- <-;
                                    vm_compute in Ho; discriminate Ho].
  case_eq (Dashboard.expiring_metric out).
  - intros n Hn. rewrite <- (proj2 (expiry_horizon_mask parse_demo _ _ 0 σ' l' out E Ho) n Hn).
    reflexivity.
  - intros Hn. vm_compute in E. injection E as <- <-. vm_compute in Ho. injection Ho as <-.
    vm_compute in Hn. discriminate Hn.
Defined.

Lemma ingest_main_persists_witness :
  snd (IngestJob.main demo_libs demo_env (fun _ _ _ => inr tt) (mkWorld [] 0 0))
  = inr "Persisted 2 rows to drilling_permits".
Proof.
  destruct (fetch_remote demo_libs (IngestJob.getenv demo_env "TX_RRC_EXPORT_URL" "") "TX"
              (mkWorld [] 0 0)) as [w1 r1] eqn:Ea.
  assert (Ha : exists a, r1 = inr a)
    by (vm_compute in Ea; injection Ea as _ <-; eexists; reflexivity).
  destruct Ha as [a ->].
  destruct (fetch_remote demo_libs (IngestJob.getenv demo_env "LA_SONRIS_EXPORT_URL" "") "LA"
              w1) as [w2 r2] eqn:Eb.
  assert (Hb : exists b, r2 = inr b)
    by (vm_compute in Ea; injection Ea as <- _; vm_compute in Eb; injection Eb as _ <-;
        eexists; reflexivity).
  destruct Hb as [b ->].
  rewrite (proj2 (proj2 (ingest_main_persists demo_libs demo_env (fun _ _ _ => inr tt)
             (mkWorld [] 0 0) w1 a w2 b ltac:(discriminate) ltac:(discriminate)
             ltac:(discriminate) Ea Eb))).
  vm_compute in Ea. injection Ea as _ <-. vm_compute in Eb. injection Eb as _ <-.
  reflexivity.
Defined.

Lemma ingest_main_tx_failure_witness :
  IngestJob.main offline_libs demo_env (fun _ _ _ => inr tt) (mkWorld [] 0 0)
  = (mkWorld [] 1 0, inl "ConnectionError: Max retries exceeded").
Proof.
  exact (proj2 (ingest_main_tx_failure offline_libs demo_env (fun _ _ _ => inr tt)
           (mkWorld [] 0 0) (mkWorld [] 1 0) "ConnectionError: Max retries exceeded"
           ltac:(discriminate) ltac:(discriminate) ltac:(discriminate) eq_refl)).
Defined.
